(** * tatc: point generation and polygon normalisation

  A shallow embedding of [tatc/generation/points.py] and of the geometry
  helpers of [tatc/utils.py].

  Conventions of the embedding.
  - A Python or NumPy float is a real number ([R]): arithmetic is exact, so
    the development speaks about the formulas the code evaluates and not
    about binary64 rounding.  A Python int is a [Z].
  - A call that can raise returns a [result]; [Raise e] propagates through
    [bind] exactly as an uncaught exception does.
  - shapely and geopandas are used by the code as a geometry engine.  What
    the code asks of a mask (validity, bounds, point clipping) is the record
    [Mask]; what it asks of polygons (validity, [split], [crosses]) is the
    class [GeometryEngine].
  - [tatc/constants.py] is not part of the sources at hand: the three
    constants the code reads are the fields of the class [Constants]. *)

From Stdlib Require Import Reals Lra Lia ZArith List Bool Zfloor.
Import ListNotations.
Open Scope R_scope.

(** ** Python and NumPy primitives *)

Module Py.

Inductive exn : Type :=
| ValueError
| TypeError
| ZeroDivisionError
| UnboundLocalError.

Inductive result (A : Type) : Type :=
| Ok (a : A)
| Raise (e : exn).
Arguments Ok {A} a.
Arguments Raise {A} e.

Definition bind {A B : Type} (m : result A) (k : A -> result B) : result B :=
  match m with
  | Ok a => k a
  | Raise e => Raise e
  end.

(** A list comprehension whose element expression can raise. *)
Fixpoint mapM {A B : Type} (f : A -> result B) (l : list A) : result (list B) :=
  match l with
  | [] => Ok []
  | a :: l' =>
      bind (f a) (fun b => bind (mapM f l') (fun bs => Ok (b :: bs)))
  end.

(** Comparisons of floats, as booleans. *)
Definition Rleb (x y : R) : bool := if Rle_dec x y then true else false.
Definition Rltb (x y : R) : bool := if Rlt_dec x y then true else false.
Definition Reqb (x y : R) : bool := if Req_dec_T x y then true else false.

(** [range(lo, hi)] *)
Definition range (lo hi : Z) : list Z :=
  map (fun k => (lo + Z.of_nat k)%Z) (seq 0 (Z.to_nat (hi - lo))).

(** [int(x)] of a float: truncation towards zero. *)
Definition int (x : R) : Z :=
  if Rlt_dec x 0 then Zceil x else Zfloor x.

(** [np.round(x)] / [np.around(x)]: nearest integer, ties to the even one;
    the value is still a float. *)
Definition round_half_even (x : R) : Z :=
  let f := Zfloor x in
  if Rlt_dec (x - IZR f) (1 / 2) then f
  else if Rlt_dec (1 / 2) (x - IZR f) then (f + 1)%Z
  else if Z.even f then f else (f + 1)%Z.

Definition np_round (x : R) : R := IZR (round_half_even x).

(** [np.mod(x, y)] on floats: the remainder has the sign of the divisor. *)
Definition np_mod (x y : R) : R := x - IZR (Zfloor (x / y)) * y.

(** [np.mod(i, n)] on integers; NumPy's integer remainder of a division by
    zero is 0. *)
Definition np_mod_int (i n : Z) : Z :=
  if (n =? 0)%Z then 0%Z else (i mod n)%Z.

(** [np.degrees(x)] *)
Definition np_degrees (x : R) : R := x * (180 / PI).

(** Float division as [numba] compiles it ([error_model='python']): a zero
    divisor raises. *)
Definition div (x y : R) : result R :=
  if Req_dec_T y 0 then Raise ZeroDivisionError else Ok (x / y).

End Py.
Export Py.

Notation "x <- m ;; k" := (bind m (fun x => k))
(at level 61, m at next level, right associativity).

(** ** tatc.constants *)

Class Constants : Type := {
EARTH_MEAN_RADIUS : R;   (* read by utils.py *)
EARTH_SURFACE_AREA : R;  (* read by utils.py *)
earth_mean_radius : R    (* read by generation/points.py *)
}.

(** ** NumPy on one-dimensional arrays *)

Module Np.

(** [np.diff(a)] *)
Fixpoint diff (a : list R) : list R :=
  match a with
  | x :: (y :: _) as t => (y - x) :: diff t
  | _ => []
  end.

Fixpoint cumsum_from (acc : R) (a : list R) : list R :=
  match a with
  | [] => []
  | x :: t => (acc + x) :: cumsum_from (acc + x) t
  end.

(** [np.cumsum(a)] *)
Definition cumsum (a : list R) : list R := cumsum_from 0 a.

(** [a.max()] of a non-empty array. *)
Definition max (a : list R) : R :=
  match a with
  | [] => 0
  | x :: t => fold_left Rmax t x
  end.

(** Sorting of (key, value) pairs by key; equal keys keep their order, as
    NumPy's sort does on the short arrays of a polygon ring. *)
Fixpoint insert_by_key (p : R * R) (l : list (R * R)) : list (R * R) :=
  match l with
  | [] => [p]
  | q :: t => if Rltb (fst p) (fst q) then p :: l else q :: insert_by_key p t
  end.

Definition sort_by_key (l : list (R * R)) : list (R * R) :=
  fold_left (fun acc p => insert_by_key p acc) l [].

(** [np.sort(a)] *)
Definition sort (a : list R) : list R :=
  map fst (sort_by_key (combine a a)).

(** [v[np.argsort(a)]] *)
Definition take_argsort (a v : list R) : list R :=
  map snd (sort_by_key (combine a v)).

(** [np.interp(x, xp, fp)]: piecewise linear interpolation, constant
    outside the sample points. *)
Fixpoint interp_from (x : R) (prev : R * R) (pts : list (R * R)) : R :=
  match pts with
  | [] => snd prev
  | next :: rest =>
      if Rltb x (fst next) then
        if Reqb (fst prev) x then snd prev
        else (snd next - snd prev) / (fst next - fst prev) * (x - fst prev)
             + snd prev
      else interp_from x next rest
  end.

Definition interp (x : R) (xp fp : list R) : R :=
  match combine xp fp with
  | [] => 0
  | first :: rest =>
      if Rltb x (fst first) then snd first else interp_from x first rest
  end.

End Np.

(** ** shapely geometries *)

Module Shapely.

(** A coordinate is (longitude, latitude). *)
Definition coord : Type := (R * R)%type.

Record Polygon : Type := {
  exterior : list coord;
  interiors : list (list coord)
}.

Inductive geometry : Type :=
| GPolygon (p : Polygon)
| GMultiPolygon (geoms : list Polygon)
| GLineString (coords : list coord)
| GPoint (c : coord).

Definition is_Polygon_or_MultiPolygon (g : geometry) : bool :=
  match g with
  | GPolygon _ | GMultiPolygon _ => true
  | _ => false
  end.

(** What the code passes as one ordinate of a coordinate: a float, or by
    accident a tuple. *)
Inductive pyval : Type :=
| PyFloat (x : R)
| PyTuple (items : list R).

Definition as_float (v : pyval) : result R :=
  match v with
  | PyFloat x => Ok x
  | PyTuple _ => Raise TypeError
  end.

(** The coordinates of a ring, as the Polygon constructor reads them: every
    ordinate has to be a number.  (The rings built by the code are images,
    vertex by vertex, of rings of an existing Polygon, so the constructor's
    demands on the number of vertices are met.) *)
Definition ring_of (cs : list (pyval * pyval)) : result (list coord) :=
  mapM (fun c => x <- as_float (fst c) ;; y <- as_float (snd c) ;; Ok (x, y))
       cs.

(** [Polygon(shell, holes)] *)
Definition Polygon_new (shell : list (pyval * pyval))
    (holes : list (list (pyval * pyval))) : result Polygon :=
  ext <- ring_of shell ;;
  ints <- mapM ring_of holes ;;
  Ok {| exterior := ext; interiors := ints |}.

(** [MultiPolygon(polygons)]: every member has to be a Polygon. *)
Definition MultiPolygon_new (gs : list geometry) : result geometry :=
  ps <- mapM (fun g => match g with
                       | GPolygon p => Ok p
                       | _ => Raise TypeError
                       end) gs ;;
  Ok (GMultiPolygon ps).

(** [p.geoms if isinstance(p, MultiPolygon) else [p]] *)
Definition geoms_or_self (p : geometry) : list geometry :=
  match p with
  | GMultiPolygon ps => map GPolygon ps
  | _ => [p]
  end.

(** Equality of geometries ([==]): same kind, same coordinates. *)
Definition coord_eqb (a b : coord) : bool :=
  Reqb (fst a) (fst b) && Reqb (snd a) (snd b).

Fixpoint list_eqb {A : Type} (eqb : A -> A -> bool) (l l' : list A) : bool :=
  match l, l' with
  | [], [] => true
  | a :: t, b :: t' => eqb a b && list_eqb eqb t t'
  | _, _ => false
  end.

Definition Polygon_eqb (p q : Polygon) : bool :=
  list_eqb coord_eqb (exterior p) (exterior q)
  && list_eqb (list_eqb coord_eqb) (interiors p) (interiors q).

Definition geometry_eqb (g h : geometry) : bool :=
  match g, h with
  | GPolygon p, GPolygon q => Polygon_eqb p q
  | GMultiPolygon ps, GMultiPolygon qs => list_eqb Polygon_eqb ps qs
  | GLineString cs, GLineString ds => list_eqb coord_eqb cs ds
  | GPoint c, GPoint d => coord_eqb c d
  | _, _ => false
  end.

(** The capabilities of the geometry engine the code relies on. *)
Class GeometryEngine : Type := {
  (** [g.is_valid] *)
  is_valid : geometry -> bool;
  (** [split(g, LineString(line)).geoms] *)
  split : geometry -> list coord -> list geometry;
  (** [g.crosses(LineString(line))] *)
  crosses : geometry -> list coord -> bool
}.

End Shapely.
(** ** tatc.utils *)

Module Utils.
Import Shapely.

Section WithConstants.
Context {K : Constants}.

Definition compute_number_samples (distance : R) : result Z :=
  theta <- div distance EARTH_MEAN_RADIUS ;;
  let radius := EARTH_MEAN_RADIUS * cos (theta / 2) in
  let height := EARTH_MEAN_RADIUS - radius in
  let sample_area := 2 * PI * EARTH_MEAN_RADIUS * height in
  q <- div EARTH_SURFACE_AREA sample_area ;;
  Ok (int q).

End WithConstants.

(** [MultiPolygon([g for p in polygons
                     for g in (p.geoms if isinstance(p, MultiPolygon) else [p])])] *)
Definition flatten (polygons : list geometry) : result geometry :=
  MultiPolygon_new (flat_map geoms_or_self polygons).

Definition _convert_collection_to_polygon (collection : list geometry)
  : geometry :=
  let pgons :=
    flat_map (fun p => match p with GPolygon q => [q] | _ => [] end)
             collection
    ++ flat_map (fun g => match g with GMultiPolygon qs => qs | _ => [] end)
                collection in
  match pgons with
  | [p] => GPolygon p
  | _ => GMultiPolygon pgons
  end.

Section WithEngine.
Context {E : GeometryEngine}.

(** *** North pole *)

(** The branch [isinstance(polygon, Polygon)]. *)
Definition _wrap_Polygon_over_north_pole (polygon : Polygon)
  : result geometry :=
  if forallb (fun c => Rleb (snd c) 90) (exterior polygon)
  then Ok (GPolygon polygon)
  else
    let lat_shift :=
      if forallb (fun c => Rleb (fst c) 0) (exterior polygon)
      then 180 else -180 in
    pgon <- Polygon_new
              (map (fun c : coord =>
                      (PyFloat (if Rleb 90 (snd c) then fst c + lat_shift
                                else fst c),
                       PyFloat (if Rleb 90 (snd c) then 180 - snd c
                                else snd c)))
                   (exterior polygon))
              (map (fun i =>
                      map (fun c : coord =>
                             (PyFloat (if Rleb 90 (snd c)
                                       then fst c + lat_shift else fst c),
                              PyFloat (if Rleb 90 (snd c)
                                       then 180 - snd c else snd c)))
                          i)
                   (interiors polygon)) ;;
    if negb (is_valid (GPolygon pgon)) then Ok (GPolygon polygon)
    else Ok (GPolygon pgon).

(** The recursive calls of the MultiPolygon branch are on Polygons, hence
    calls of the first branch. *)
Definition _wrap_polygon_over_north_pole (polygon : geometry)
  : result geometry :=
  match polygon with
  | GPolygon p => _wrap_Polygon_over_north_pole p
  | GMultiPolygon geoms =>
      polygons <- mapM _wrap_Polygon_over_north_pole geoms ;;
      flatten polygons
  | _ => Raise ValueError
  end.

(** The loop that cuts again every part crossing the half-line [line]:
    it runs over the parts of the first cut and rebinds [parts]. *)
Definition split_crossing_parts (line : list coord) (parts : list geometry)
  : list geometry :=
  fold_left
    (fun parts part =>
       if crosses part line
       then filter (fun g => negb (geometry_eqb g part)) parts
            ++ split part line
       else parts)
    parts parts.

Definition _split_Polygon_north_pole (polygon : Polygon) : result geometry :=
  if forallb (fun c => Rleb (snd c) 90) (exterior polygon)
  then Ok (GPolygon polygon)
  else
    let parts := split (GPolygon polygon) [(-360, 90); (360, 90)] in
    let parts := split_crossing_parts [(0, 90); (0, 180)] parts in
    let parts := _convert_collection_to_polygon parts in
    _wrap_polygon_over_north_pole parts.

Definition _split_polygon_north_pole (polygon : geometry) : result geometry :=
  match polygon with
  | GPolygon p => _split_Polygon_north_pole p
  | GMultiPolygon geoms =>
      pgons <- mapM _split_Polygon_north_pole geoms ;;
      flatten pgons
  | _ => Raise ValueError
  end.

(** *** South pole *)

Definition _wrap_Polygon_over_south_pole (polygon : Polygon)
  : result geometry :=
  if forallb (fun c => Rleb (-90) (snd c)) (exterior polygon)
  then Ok (GPolygon polygon)
  else
    let lat_shift :=
      if forallb (fun c => Rleb (fst c) 0) (exterior polygon)
      then 180 else -180 in
    pgon <- Polygon_new
              (map (fun c : coord =>
                      (PyFloat (if Rleb (snd c) (-90) then fst c + lat_shift
                                else fst c),
                       PyFloat (if Rleb (snd c) (-90) then -180 - snd c
                                else snd c)))
                   (exterior polygon))
              (map (fun i =>
                      map (fun c : coord =>
                             (* the longitude is wrapped in a 1-tuple *)
                             (PyTuple [if Rleb (snd c) (-90)
                                       then fst c + lat_shift else fst c],
                              PyFloat (if Rleb (snd c) (-90)
                                       then -180 - snd c else snd c)))
                          i)
                   (interiors polygon)) ;;
    if negb (is_valid (GPolygon pgon)) then Ok (GPolygon polygon)
    else Ok (GPolygon pgon).

Definition _wrap_polygon_over_south_pole (polygon : geometry)
  : result geometry :=
  match polygon with
  | GPolygon p => _wrap_Polygon_over_south_pole p
  | GMultiPolygon geoms =>
      polygons <- mapM _wrap_Polygon_over_south_pole geoms ;;
      flatten polygons
  | _ => Raise ValueError
  end.

Definition _split_Polygon_south_pole (polygon : Polygon) : result geometry :=
  let lat := map snd (exterior polygon) in
  if forallb (fun y => Rleb (-90) y) lat
  then Ok (GPolygon polygon)
  else
    let parts := split (GPolygon polygon) [(-360, -90); (360, -90)] in
    let parts := split_crossing_parts [(0, -90); (0, -180)] parts in
    let parts := _convert_collection_to_polygon parts in
    _wrap_polygon_over_south_pole parts.

Definition _split_polygon_south_pole (polygon : geometry) : result geometry :=
  match polygon with
  | GPolygon p => _split_Polygon_south_pole p
  | GMultiPolygon geoms =>
      pgons <- mapM _split_Polygon_south_pole geoms ;;
      flatten pgons
  | _ => Raise ValueError
  end.

(** *** Antimeridian *)

(** [pgon] is bound by neither, one or both of the two [if]s; reading it
    while unbound raises. *)
Definition _wrap_Polygon_over_antimeridian (polygon : Polygon)
  : result geometry :=
  if forallb (fun c => Rleb (-180) (fst c) && Rleb (fst c) 180)
             (exterior polygon)
  then Ok (GPolygon polygon)
  else
    pgon <- (if forallb (fun c => Rleb (fst c) (-180)) (exterior polygon)
             then
               p <- Polygon_new
                      (map (fun c : coord =>
                              (PyFloat (fst c + 360), PyFloat (snd c)))
                           (exterior polygon))
                      (map (fun i =>
                              map (fun c : coord =>
                                     (PyFloat (fst c + 360), PyFloat (snd c)))
                                  i)
                           (interiors polygon)) ;;
               Ok (Some p)
             else Ok None) ;;
    pgon <- (if forallb (fun c => Rleb 180 (fst c)) (exterior polygon)
             then
               p <- Polygon_new
                      (map (fun c : coord =>
                              (PyFloat (fst c - 360), PyFloat (snd c)))
                           (exterior polygon))
                      (map (fun i =>
                              map (fun c : coord =>
                                     (PyFloat (fst c - 360), PyFloat (snd c)))
                                  i)
                           (interiors polygon)) ;;
               Ok (Some p)
             else Ok pgon) ;;
    match pgon with
    | None => Raise UnboundLocalError
    | Some pgon =>
        if negb (is_valid (GPolygon pgon)) then Ok (GPolygon polygon)
        else Ok (GPolygon pgon)
    end.

Definition _wrap_polygon_over_antimeridian (polygon : geometry)
  : result geometry :=
  match polygon with
  | GPolygon p => _wrap_Polygon_over_antimeridian p
  | GMultiPolygon geoms =>
      pgons <- mapM _wrap_Polygon_over_antimeridian geoms ;;
      flatten pgons
  | _ => Raise ValueError
  end.

Definition _split_Polygon_antimeridian (polygon : Polygon)
  : result geometry :=
  let lon := map fst (exterior polygon) in
  if forallb (fun d => Rltb (Rabs d) 180) (Np.diff lon)
  then Ok (GPolygon polygon)
  else
    let shift :=
      0 :: Np.cumsum (map (fun d => np_round (d / 360)) (Np.diff lon)) in
    pgon <- Polygon_new
              (map (fun ic : coord * R =>
                      let '(c, shift_i) := ic in
                      (PyFloat (fst c - 360 * shift_i), PyFloat (snd c)))
                   (combine (exterior polygon) shift))
              (map (fun i =>
                      map (fun ic : coord =>
                             (PyFloat
                                (fst ic
                                 - 360 * Np.interp (fst ic) (Np.sort lon)
                                           (Np.take_argsort lon shift)),
                              PyFloat (snd ic)))
                          i)
                   (interiors polygon)) ;;
    let shift_dir := if Rleb 1 (Np.max shift) then -180 else 180 in
    let parts :=
      split (GPolygon pgon) [(shift_dir, -180); (shift_dir, 180)] in
    let parts := _convert_collection_to_polygon parts in
    _wrap_polygon_over_antimeridian parts.

Definition _split_polygon_antimeridian (polygon : geometry)
  : result geometry :=
  match polygon with
  | GPolygon p => _split_Polygon_antimeridian p
  | GMultiPolygon geoms =>
      pgons <- mapM _split_Polygon_antimeridian geoms ;;
      flatten pgons
  | _ => Raise ValueError
  end.

(** *** The pipeline *)

Definition split_polygon (polygon : geometry) : result geometry :=
  a <- _split_polygon_antimeridian polygon ;;
  s <- _split_polygon_south_pole a ;;
  _split_polygon_north_pole s.

(** What [normalize_geometry] receives and returns: a bare geometry, a
    GeoSeries or a GeoDataFrame (its geometry column). *)
Inductive pyobject : Type :=
| Geometry (g : geometry)
| GeoSeries (rows : list geometry)
| GeoDataFrame (rows : list geometry).

Definition normalize_geometry (geometry : pyobject) : result pyobject :=
  geometry <-
    match geometry with
    | Geometry g =>
        if is_Polygon_or_MultiPolygon g
        then if negb (is_valid g) then Raise ValueError
             else Ok (GeoDataFrame [g])
        else Ok geometry
    | GeoSeries rows => Ok (GeoDataFrame rows)
    | GeoDataFrame _ => Ok geometry
    end ;;
  match geometry with
  | GeoDataFrame rows =>
      rows <- mapM split_polygon rows ;;
      Ok (GeoDataFrame rows)
  | _ => Ok geometry
  end.

End WithEngine.
End Utils.

(** ** tatc.generation.points *)

Module Points.

(** One row of the returned GeoDataFrame. *)
Record point : Type := {
  point_id : Z;
  longitude : R;
  latitude : R
}.

(** A mask (a shapely Polygon or MultiPolygon) as the samplers see it:
    [mask.is_valid], [mask.bounds] = (minx, miny, maxx, maxy), and the test
    [gpd.clip] applies to a point. *)
Record Mask : Type := {
  is_valid : bool;
  bounds : R * R * R * R;
  covers : R -> R -> bool
}.

(** [gpd.clip(gdf, mask).reset_index(drop=True)] on a frame of points. *)
Definition clip (gdf : list point) (mask : Mask) : list point :=
  filter (fun p => covers mask (longitude p) (latitude p)) gdf.

Definition _compute_latitude (i n : Z) : R :=
  np_degrees (asin (IZR (2 * (i + 1)) / IZR (n + 2) - 1)).

Definition _compute_longitude (i n : Z) : R :=
  let phi := (1 + sqrt 5) / 2 in
  let longitude := np_mod (360 * IZR i / phi) 360 in
  if Rlt_dec 180 longitude then longitude - 360 else longitude.

(** The part shared by both samplers: validity check and bounds. *)
Definition total_bounds (mask : option Mask) : result (R * R * R * R) :=
  match mask with
  | Some m => if negb (is_valid m) then Raise ValueError else Ok (bounds m)
  | None => Ok (-180, -90, 180, 90)
  end.

Definition is_not_None (mask : option Mask) : bool :=
  match mask with Some _ => true | None => false end.

Section WithConstants.
Context {K : Constants}.

Definition generate_fibonacci_lattice_points
    (distance : R) (mask : option Mask) : result (list point) :=
  samples <- Utils.compute_number_samples distance ;;
  tb <- total_bounds mask ;;
  let '(b0, b1, b2, b3) := tb in
  let min_longitude := b0 in
  let min_latitude := b1 in
  let max_longitude := if Reqb b2 (-180) then 180 else b2 in
  let max_latitude := b3 in
  let indices :=
    match mask with
    | None => range 0 samples
    | Some _ =>
        filter
          (fun i =>
             (Rleb min_latitude (_compute_latitude i samples)
              && Rleb (_compute_latitude i samples) max_latitude)
             && (let lon :=
                   if Rltb 180 max_longitude
                      && Rltb (_compute_longitude i samples) 0
                   then _compute_longitude i samples + 360
                   else _compute_longitude i samples in
                 Rleb min_longitude lon && Rleb lon max_longitude))
          (range 0 samples)
    end in
  let gdf :=
    map (fun i =>
           {| point_id := i;
              longitude :=
                if is_not_None mask
                   && Rltb 180 max_longitude
                   && Rltb (_compute_longitude i samples) 0
                then _compute_longitude i samples + 360
                else _compute_longitude i samples;
              latitude := _compute_latitude i samples |})
        indices in
  match mask with
  | Some m => Ok (clip gdf m)
  | None => Ok gdf
  end.

Definition _compute_id (i j : Z) (theta_i theta_j : R) : Z :=
  (j * int (360 / theta_j) + np_mod_int i (int (360 / theta_i)))%Z.

Definition _generate_cubed_sphere_points
    (theta_longitude theta_latitude : R) (mask : option Mask)
  : result (list point) :=
  tb <- total_bounds mask ;;
  let '(b0, b1, b2, b3) := tb in
  let min_longitude := b0 in
  let min_latitude := b1 in
  let max_longitude := if Reqb b2 (-180) then 180 else b2 in
  let max_latitude := b3 in
  (* a zero step makes every quotient below inf or nan, and [int] of it
     raises *)
  if Reqb theta_longitude 0 || Reqb theta_latitude 0
  then Raise ZeroDivisionError
  else
    let indices :=
      flat_map
        (fun j =>
           map (fun i => (i, j))
               (range
                  (int (np_round ((min_longitude + 180) / theta_longitude)))
                  (int (np_round ((max_longitude + 180) / theta_longitude)))))
        (range
           (int (np_round ((min_latitude + 90) / theta_latitude)))
           (int (np_round ((max_latitude + 90) / theta_latitude)))) in
    let gdf :=
      map (fun '(i, j) =>
             {| point_id := _compute_id i j theta_longitude theta_latitude;
                longitude := -180 + (IZR i + 0.5) * theta_longitude;
                latitude := -90 + (IZR j + 0.5) * theta_latitude |})
          indices in
    match mask with
    | Some m => Ok (clip gdf m)
    | None => Ok gdf
    end.

Definition generate_cubed_sphere_points
    (distance : R) (mask : option Mask) : result (list point) :=
  q <- div distance earth_mean_radius ;;
  let theta_longitude := np_degrees q in
  let theta_latitude := np_degrees q in
  _generate_cubed_sphere_points theta_longitude theta_latitude mask.

End WithConstants.
End Points.
(** ** tatc.utils: anomalies, field of regard, ground track *)

(** Further constants of [tatc/constants.py], read by the orbit helpers. *)
Class OrbitConstants : Type := {
  EARTH_MU : R;
  EARTH_SIDEREAL_DAY_S : R
}.

Module UtilsNumeric.

(** [np.radians(x)] *)
Definition np_radians (x : R) : R := x * (PI / 180).

(** [np.sqrt], [np.arcsin] and [np.arccos] are [sqrt], [asin] and [acos];
    outside their domains NumPy returns nan, which has no counterpart in
    [R], so the statements about them keep the arguments inside. *)

Definition mean_anomaly_to_true_anomaly (mean_anomaly eccentricity : R) : R :=
  let mean_anomaly_rad := np_radians mean_anomaly in
  let true_anomaly_rad :=
    mean_anomaly_rad
    + (2 * eccentricity - (1 / 4) * eccentricity ^ 3) * sin mean_anomaly_rad
    + (5 / 4) * eccentricity ^ 2 * sin (2 * mean_anomaly_rad)
    + (13 / 12) * eccentricity ^ 3 * sin (3 * mean_anomaly_rad) in
  np_degrees true_anomaly_rad.

Definition true_anomaly_to_mean_anomaly (true_anomaly eccentricity : R) : R :=
  let true_anomaly_rad := np_radians true_anomaly in
  let mean_anomaly_rad :=
    true_anomaly_rad
    - 2 * eccentricity * sin true_anomaly_rad
    + ((3 / 4) * eccentricity ^ 2 + (1 / 8) * eccentricity ^ 4)
      * sin (2 * true_anomaly_rad)
    - (1 / 3) * eccentricity ^ 3 * sin (3 * true_anomaly_rad)
    + (5 / 32) * eccentricity ^ 4 * sin (4 * true_anomaly_rad) in
  np_degrees mean_anomaly_rad.

Section WithConstants.
Context {K : Constants}.

Definition compute_field_of_regard
    (altitude min_elevation_angle elevation : R) : result R :=
  sin_rho <- div (EARTH_MEAN_RADIUS + elevation)
                 (EARTH_MEAN_RADIUS + altitude) ;;
  let cos_epsilon := cos (np_radians min_elevation_angle) in
  let sin_eta := sin_rho * cos_epsilon in
  Ok (np_degrees (asin sin_eta * 2)).

Definition compute_min_elevation_angle
    (altitude field_of_regard elevation : R) : result R :=
  let sin_eta := sin (np_radians field_of_regard / 2) in
  sin_rho <- div (EARTH_MEAN_RADIUS + elevation)
                 (EARTH_MEAN_RADIUS + altitude) ;;
  cos_epsilon <- div sin_eta sin_rho ;;
  if Rlt_dec 1 cos_epsilon then Ok 0
  else Ok (np_degrees (acos cos_epsilon)).

Context {O : OrbitConstants}.

Definition compute_ground_velocity (altitude inclination : R) : result R :=
  let semimajor_axis := EARTH_MEAN_RADIUS + altitude in
  q <- div EARTH_MU (semimajor_axis ^ 3) ;;
  let mean_motion_rad_s := sqrt q in
  w <- div (2 * PI * cos (np_degrees inclination)) EARTH_SIDEREAL_DAY_S ;;
  Ok (EARTH_MEAN_RADIUS * (mean_motion_rad_s - w)).

Definition along_track_distance_to_access_time
    (altitude inclination along_track : R) : result R :=
  let semimajor_axis := EARTH_MEAN_RADIUS + altitude in
  q <- div EARTH_MU (semimajor_axis ^ 3) ;;
  let mean_motion_rad_s := sqrt q in
  w <- div (2 * PI * cos (np_degrees inclination)) EARTH_SIDEREAL_DAY_S ;;
  let ground_velocity := EARTH_MEAN_RADIUS * (mean_motion_rad_s - w) in
  div along_track ground_velocity.

Definition access_time_to_along_track_distance
    (altitude inclination access_time : R) : result R :=
  let semimajor_axis := EARTH_MEAN_RADIUS + altitude in
  q <- div EARTH_MU (semimajor_axis ^ 3) ;;
  let mean_motion_rad_s := sqrt q in
  w <- div (2 * PI * cos (np_degrees inclination)) EARTH_SIDEREAL_DAY_S ;;
  let ground_velocity := EARTH_MEAN_RADIUS * (mean_motion_rad_s - w) in
  Ok (ground_velocity * access_time).

End WithConstants.
End UtilsNumeric.


(** ** Concrete inputs *)

Module Inputs.

(** Modelled from the spec: [tatc/constants.py] is missing from the sources.
    The spec (4.3, 4.4) names a "mean Earth radius" and the "total sphere
    surface area" of the "mean-radius sphere": for a radius [r] the three
    constants are [r], [4 pi r^2] and [r]. *)
Definition sphere_constants (r : R) : Constants :=
  {| EARTH_MEAN_RADIUS := r;
     EARTH_SURFACE_AREA := 4 * PI * (r * r);
     earth_mean_radius := r |}.

(** The mean radius of the WGS 84 ellipsoid, in metres. *)
Definition wgs84_mean_radius : R := 6371008.7714.

Definition wgs84 : Constants := sphere_constants wgs84_mean_radius.

(** Modelled from the spec: [tatc/constants.py] is missing and the spec
    gives no values for these two; closed examples of the orbit helpers use
    the standard gravitational parameter of the Earth (m^3/s^2) and the
    length of the sidereal day (s). *)
Definition earth_orbit : OrbitConstants :=
  {| EARTH_MU := 398600441800000; EARTH_SIDEREAL_DAY_S := 86164.0905 |}.

(** The rectangle [box(minx, miny, maxx, maxy)] as a mask: a valid polygon
    whose bounds are its corners and which covers exactly the points of the
    closed rectangle. *)
Definition box (minx miny maxx maxy : R) : Points.Mask :=
  {| Points.is_valid := true;
     Points.bounds := (minx, miny, maxx, maxy);
     Points.covers := fun x y =>
       Rleb minx x && Rleb x maxx && Rleb miny y && Rleb y maxy |}.

(** *** Polygons *)

Import Shapely.

(** The polygon [p] moved by [dx] degrees of longitude. *)
Definition shift_longitude (dx : R) (p : Polygon) : Polygon :=
  {| exterior := map (fun c : coord => (fst c + dx, snd c)) (exterior p);
     interiors :=
       map (map (fun c : coord => (fst c + dx, snd c))) (interiors p) |}.

(** A ten-degree square away from the antimeridian and the poles. *)
Definition square : Polygon :=
  {| exterior := [(0, 0); (10, 0); (10, 10); (0, 10); (0, 0)];
     interiors := [] |}.

(** A rectangle across the antimeridian, its ring running from 170 to 190
    degrees of longitude. *)
Definition rect_unwrapped : Polygon :=
  {| exterior := [(170, 0); (190, 0); (190, 10); (170, 10); (170, 0)];
     interiors := [] |}.

(** The same rectangle with its longitudes wrapped into [-180, 180]. *)
Definition rect_wrapped : Polygon :=
  {| exterior := [(170, 0); (-170, 0); (-170, 10); (170, 10); (170, 0)];
     interiors := [] |}.


Definition rect_east : Polygon :=
  {| exterior := [(180, 0); (190, 0); (190, 10); (180, 10); (180, 0)];
     interiors := [] |}.

(** A polygon reaching five degrees beyond the south pole, with a hole. *)
Definition south_cap_with_hole : Polygon :=
  {| exterior := [(0, -95); (10, -95); (10, -80); (0, -80); (0, -95)];
     interiors := [[(2, -88); (8, -88); (8, -84); (2, -84); (2, -88)]] |}.

(** An engine for closed examples: every geometry is valid, nothing
    crosses, and every cut yields [parts]. *)
Definition cut_engine (parts : list geometry) : GeometryEngine :=
  {| is_valid := fun _ => true;
     split := fun _ _ => parts;
     crosses := fun _ _ => false |}.

Definition a_line : geometry := GLineString [(0, 0); (1, 1)].

End Inputs.

(** ** Derived notions used in the statements *)

Module Derived.
Import Points.

(** The argument of [arcsin] in [_compute_latitude]. *)
Definition sine_of_latitude (i n : Z) : R :=
  IZR (2 * (i + 1)) / IZR (n + 2) - 1.

(** [360 / phi], about 222.49. *)
Definition golden_angle : R := 360 * 1 / ((1 + sqrt 5) / 2).

(** [max_longitude] as both samplers derive it from the bounds. *)
Definition max_longitude_of (b : R * R * R * R) : R :=
  let '(_, _, b2, _) := b in if Reqb b2 (-180) then 180 else b2.

(** The point built for the grid cell [(i, j)]. *)
Definition cell (theta_longitude theta_latitude : R) (ij : Z * Z) : point :=
  let '(i, j) := ij in
  {| point_id := _compute_id i j theta_longitude theta_latitude;
     longitude := -180 + (IZR i + 0.5) * theta_longitude;
     latitude := -90 + (IZR j + 0.5) * theta_latitude |}.


End Derived.

(** ** Further notions used in the statements *)

Module Notions.
Import Points Derived.

(** The bounding-box test of the lattice sampler on a candidate point. *)
Definition in_box (b : R * R * R * R) (p : point) : bool :=
  let '(b0, b1, _, b3) := b in
  (Rleb b1 (latitude p) && Rleb (latitude p) b3)
  && (Rleb b0 (longitude p) && Rleb (longitude p) (max_longitude_of b)).

(** A point with a negative longitude moved east by 360 degrees, when the
    bounds reach beyond 180. *)
Definition wrap_east (b : R * R * R * R) (p : point) : point :=
  if Rltb 180 (max_longitude_of b) && Rltb (longitude p) 0
  then {| point_id := point_id p;
          longitude := longitude p + 360;
          latitude := latitude p |}
  else p.

(** *** Polygons *)

Import Shapely.

(** All the vertices of a polygon, exterior ring first. *)
Definition vertices (p : Polygon) : list coord :=
  exterior p ++ concat (interiors p).

(** No two consecutive vertices of the exterior ring are 180 degrees of
    longitude or more apart. *)
Definition no_jump (p : Polygon) : Prop :=
  forall i a b,
    nth_error (exterior p) i = Some a ->
    nth_error (exterior p) (S i) = Some b ->
    Rabs (fst b - fst a) < 180.

(** The per-vertex wrap count of [_split_polygon_antimeridian]. *)
Definition unwrap_shift (lon : list R) : list R :=
  0 :: Np.cumsum (map (fun d => np_round (d / 360)) (Np.diff lon)).

(** The exterior ring it hands to the Polygon constructor. *)
Definition unwrapped_exterior (ext : list coord) : list coord :=
  map (fun ic : coord * R => (fst (fst ic) - 360 * snd ic, snd (fst ic)))
      (combine ext (unwrap_shift (map fst ext))).

(** The same ring when the wrap count starts from [acc]. *)
Definition unwrap_from (acc : R) (ext : list coord) : list coord :=
  map (fun ic : coord * R => (fst (fst ic) - 360 * snd ic, snd (fst ic)))
      (combine ext
         (acc :: Np.cumsum_from acc
                   (map (fun d => np_round (d / 360))
                        (Np.diff (map fst ext))))).

(** The outcome of a pole wrap on one polygon: [q] is [p] itself, or a valid
    polygon with as many exterior vertices, all of whose vertices satisfy
    [ok]. *)
Definition kept_or_repaired {E : GeometryEngine} (ok : coord -> Prop)
    (p q : Polygon) : Prop :=
  q = p
  \/ (is_valid (GPolygon q) = true
      /\ length (exterior q) = length (exterior p)
      /\ Forall ok (vertices q)).

End Notions.
(** ** Facts about the primitives *)

Module PyFacts.

Lemma bind_Ok_inv {A B : Type} (m : result A) (k : A -> result B) (b : B) :
  bind m k = Ok b -> exists a, m = Ok a /\ k a = Ok b.
Proof.
  destruct m as [a | e]; simpl; intros H; [eauto | discriminate].
Qed.

Lemma Rleb_true x y : Rleb x y = true <-> x <= y.
Proof. unfold Rleb; destruct (Rle_dec x y); split; intros; try discriminate; auto; lra. Qed.

Lemma Rleb_false x y : Rleb x y = false <-> y < x.
Proof. unfold Rleb; destruct (Rle_dec x y); split; intros; try discriminate; auto; lra. Qed.

Lemma Rltb_true x y : Rltb x y = true <-> x < y.
Proof. unfold Rltb; destruct (Rlt_dec x y); split; intros; try discriminate; auto; lra. Qed.

Lemma Rltb_false x y : Rltb x y = false <-> y <= x.
Proof. unfold Rltb; destruct (Rlt_dec x y); split; intros; try discriminate; auto; lra. Qed.

Lemma Reqb_true x y : Reqb x y = true <-> x = y.
Proof. unfold Reqb; destruct (Req_dec_T x y); split; intros; try discriminate; auto; lra. Qed.

Lemma Reqb_false x y : Reqb x y = false <-> x <> y.
Proof. unfold Reqb; destruct (Req_dec_T x y); split; intros; try discriminate; auto; lra. Qed.

(** Decides the comparisons of the goal whose outcome [lra] can settle. *)
Ltac decide_comparisons :=
  repeat match goal with
    | |- context [Rleb ?a ?b] =>
        first [ rewrite (proj2 (Rleb_true a b)) by lra
              | rewrite (proj2 (Rleb_false a b)) by lra ]
    | |- context [Rltb ?a ?b] =>
        first [ rewrite (proj2 (Rltb_true a b)) by lra
              | rewrite (proj2 (Rltb_false a b)) by lra ]
    | |- context [Reqb ?a ?b] =>
        first [ rewrite (proj2 (Reqb_true a b)) by lra
              | rewrite (proj2 (Reqb_false a b)) by lra ]
    end.

(** *** [range] *)

Lemma range_length lo hi : length (range lo hi) = Z.to_nat (hi - lo).
Proof. unfold range; now rewrite length_map, length_seq. Qed.

Lemma range_In lo hi k : In k (range lo hi) <-> (lo <= k < hi)%Z.
Proof.
  unfold range; rewrite in_map_iff; split.
  - intros (n & <- & Hn); apply in_seq in Hn; lia.
  - intros Hk; exists (Z.to_nat (k - lo)); split; [lia | apply in_seq; lia].
Qed.

Lemma range_nth_error lo hi n :
  (n < Z.to_nat (hi - lo))%nat ->
  nth_error (range lo hi) n = Some (lo + Z.of_nat n)%Z.
Proof.
  intros Hn; unfold range.
  rewrite nth_error_map, nth_error_nth' with (d := 0%nat) by (rewrite length_seq; lia).
  now rewrite seq_nth by lia.
Qed.


(** *** [int] and [np.round] *)

Lemma int_IZR z : int (IZR z) = z.
Proof.
  unfold int, Zceil; destruct (Rlt_dec (IZR z) 0).
  - rewrite <- opp_IZR, ZfloorZ; lia.
  - apply ZfloorZ.
Qed.

Lemma int_nonneg x : 0 <= x -> int x = Zfloor x.
Proof. intros H; unfold int; destruct (Rlt_dec x 0); [lra | reflexivity]. Qed.

Lemma int_eq (z : Z) x : 0 <= x -> IZR z <= x < IZR z + 1 -> int x = z.
Proof. intros H0 H; rewrite int_nonneg by assumption; now apply Zfloor_eq. Qed.

Lemma round_half_even_floor x :
  (Zfloor x <= round_half_even x <= Zfloor x + 1)%Z.
Proof.
  unfold round_half_even.
  destruct (Rlt_dec _ _); [lia |].
  destruct (Rlt_dec _ _); [lia |].
  destruct (Z.even _); lia.
Qed.

Lemma round_half_even_bound x :
  x - 1 / 2 <= IZR (round_half_even x) <= x + 1 / 2.
Proof.
  pose proof (Zfloor_bound x) as Hb.
  unfold round_half_even.
  destruct (Rlt_dec _ _) as [H1 | H1]; [lra |].
  destruct (Rlt_dec _ _) as [H2 | H2]; [rewrite plus_IZR; lra |].
  destruct (Z.even _); [| rewrite plus_IZR]; lra.
Qed.

Lemma round_half_even_eq (z : Z) x :
  IZR z - 1 / 2 < x < IZR z + 1 / 2 -> round_half_even x = z.
Proof.
  intros H.
  pose proof (round_half_even_bound x) as Hb.
  apply Z.le_antisymm.
  - apply Z.lt_succ_r, lt_IZR. rewrite succ_IZR. lra.
  - apply Z.lt_pred_le, lt_IZR. unfold Z.pred. rewrite plus_IZR. lra.
Qed.


Lemma int_np_round x : int (np_round x) = round_half_even x.
Proof. apply int_IZR. Qed.

(** *** [np.mod] *)

Lemma np_mod_bound x y : 0 < y -> 0 <= np_mod x y < y.
Proof.
  intros Hy; unfold np_mod.
  pose proof (Zfloor_bound (x / y)) as [H1 H2].
  assert (Hx : x = x / y * y) by (field; lra).
  split.
  - apply Rmult_le_compat_r with (r := y) in H1; lra.
  - apply Rmult_lt_compat_r with (r := y) in H2; lra.
Qed.

Lemma np_mod_int_bound i n : (0 < n)%Z -> (0 <= np_mod_int i n < n)%Z.
Proof.
  intros Hn; unfold np_mod_int.
  destruct (Z.eqb_spec n 0); [lia | apply Z.mod_pos_bound; lia].
Qed.

(** *** [np.degrees] and [arcsin] *)

Lemma np_degrees_lt x y : x < y -> np_degrees x < np_degrees y.
Proof.
  intros H; unfold np_degrees.
  apply Rmult_lt_compat_r; [| assumption].
  apply Rdiv_lt_0_compat; [lra | apply PI_RGT_0].
Qed.

Lemma np_degrees_PI2 : np_degrees (PI / 2) = 90.
Proof. unfold np_degrees; field; apply PI_neq0. Qed.

Lemma np_degrees_opp x : np_degrees (- x) = - np_degrees x.
Proof. unfold np_degrees; ring. Qed.

Lemma asin_lt x y : -1 <= x -> x < y -> y <= 1 -> asin x < asin y.
Proof.
  intros Hx Hxy Hy.
  destruct (Rlt_le_dec (asin x) (asin y)) as [H | H]; [assumption | exfalso].
  pose proof (asin_bound x) as [? ?]; pose proof (asin_bound y) as [? ?].
  apply sin_incr_1 in H; try assumption.
  rewrite !sin_asin in H by lra. lra.
Qed.

End PyFacts.

(** ** The Fibonacci lattice *)

Module LatticeFacts.
Import PyFacts Points Derived.

Lemma sine_of_latitude_range i n :
  (0 <= i < n)%Z -> -1 < sine_of_latitude i n < 1.
Proof.
  intros Hi; unfold sine_of_latitude.
  assert (Hn : 0 < IZR (n + 2)) by (apply IZR_lt; lia).
  assert (H1 : 0 < IZR (2 * (i + 1))) by (apply IZR_lt; lia).
  assert (H2 : IZR (2 * (i + 1)) < 2 * IZR (n + 2)).
  { rewrite <- mult_IZR; apply IZR_lt; lia. }
  split.
  - pose proof (Rdiv_lt_0_compat _ _ H1 Hn); lra.
  - assert (H3 : IZR (2 * (i + 1)) / IZR (n + 2) < 2); [| lra].
    apply Rmult_lt_reg_r with (r := IZR (n + 2)); [assumption |].
    unfold Rdiv; rewrite Rmult_assoc, Rinv_l by lra. lra.
Qed.

Lemma sine_of_latitude_lt i j n :
  (0 <= i)%Z -> (i < j)%Z -> (j < n)%Z ->
  sine_of_latitude i n < sine_of_latitude j n.
Proof.
  intros H0 Hij Hjn; unfold sine_of_latitude.
  assert (Hn : 0 < IZR (n + 2)) by (apply IZR_lt; lia).
  assert (H : IZR (2 * (i + 1)) < IZR (2 * (j + 1))) by (apply IZR_lt; lia).
  apply Rplus_lt_compat_r.
  unfold Rdiv; apply Rmult_lt_compat_r; [now apply Rinv_0_lt_compat | assumption].
Qed.

Lemma _compute_latitude_range i n :
  (0 <= i < n)%Z -> -90 < _compute_latitude i n < 90.
Proof.
  intros Hi.
  pose proof (asin_bound_lt _ (sine_of_latitude_range i n Hi)) as [Hl Hu].
  unfold _compute_latitude; fold (sine_of_latitude i n).
  apply np_degrees_lt in Hl, Hu.
  rewrite np_degrees_opp, np_degrees_PI2 in Hl.
  rewrite np_degrees_PI2 in Hu. lra.
Qed.

Lemma _compute_latitude_lt i j n :
  (0 <= i)%Z -> (i < j)%Z -> (j < n)%Z ->
  _compute_latitude i n < _compute_latitude j n.
Proof.
  intros H0 Hij Hjn.
  unfold _compute_latitude; fold (sine_of_latitude i n) (sine_of_latitude j n).
  apply np_degrees_lt, asin_lt.
  - pose proof (sine_of_latitude_range i n ltac:(lia)); lra.
  - now apply sine_of_latitude_lt.
  - pose proof (sine_of_latitude_range j n ltac:(lia)); lra.
Qed.

Lemma _compute_longitude_range i n : -180 < _compute_longitude i n <= 180.
Proof.
  unfold _compute_longitude.
  set (m := np_mod _ 360).
  assert (Hm : 0 <= m < 360) by (apply np_mod_bound; lra).
  destruct (Rlt_dec 180 m); lra.
Qed.

Lemma _compute_latitude_formula i n :
  _compute_latitude i n
  = asin (2 * (IZR i + 1) / (IZR n + 2) - 1) * (180 / PI).
Proof.
  unfold _compute_latitude, np_degrees.
  now rewrite mult_IZR, !plus_IZR.
Qed.

Section WithConstants.
Context {K : Constants}.

(** With no mask the frame lists every index of [range(samples)]. *)
Lemma lattice_no_mask d N :
  Utils.compute_number_samples d = Ok N ->
  generate_fibonacci_lattice_points d None
  = Ok (map (fun i => {| point_id := i;
                          longitude := _compute_longitude i N;
                          latitude := _compute_latitude i N |})
            (range 0 N)).
Proof.
  intros HN; unfold generate_fibonacci_lattice_points; rewrite HN; reflexivity.
Qed.

(** C1. For every distance [d] whose sample count is [N] and every index [i]
    with [0 <= i < N], the [i]-th point generated without a mask has id [i],
    latitude [degrees(arcsin(2(i+1)/(N+2) - 1))] and longitude
    [(360 i / phi) mod 360], less 360 when that exceeds 180, with
    [phi = (1 + sqrt 5) / 2]; the longitude lies in (-180, 180], the
    latitude is never +90 or -90, and latitudes increase strictly with the
    index. *)
Theorem C1_lattice_closed_form (d : R) (N : Z) :
  Utils.compute_number_samples d = Ok N ->
  exists pts,
    generate_fibonacci_lattice_points d None = Ok pts /\
    length pts = Z.to_nat N /\
    forall i, (0 <= i < N)%Z ->
      let lat := fun k : Z =>
        asin (2 * (IZR k + 1) / (IZR N + 2) - 1) * (180 / PI) in
      let phi := (1 + sqrt 5) / 2 in
      let m := np_mod (360 * IZR i / phi) 360 in
      let lon := if Rlt_dec 180 m then m - 360 else m in
      nth_error pts (Z.to_nat i)
        = Some {| point_id := i; longitude := lon; latitude := lat i |} /\
      (exists k : Z, m = 360 * IZR i / phi - 360 * IZR k) /\
      0 <= m < 360 /\
      -180 < lon <= 180 /\
      lat i <> 90 /\ lat i <> -90 /\
      (forall j, (i < j < N)%Z -> lat i < lat j).
Proof.
  intros HN. eexists. split; [apply (lattice_no_mask d N HN) |].
  split; [rewrite length_map, range_length; f_equal; lia |].
  intros i Hi lat phi m lon.
  assert (Hlat : forall k, lat k = _compute_latitude k N)
    by (intros k; symmetry; apply _compute_latitude_formula).
  split; [| split; [| split; [| split; [| split; [| split]]]]].
  - rewrite nth_error_map, range_nth_error by lia.
    simpl; rewrite Z2Nat.id by lia.
    rewrite Hlat; reflexivity.
  - exists (Zfloor (360 * IZR i / phi / 360)). unfold m, np_mod. ring.
  - apply np_mod_bound; lra.
  - apply (_compute_longitude_range i N).
  - rewrite Hlat; pose proof (_compute_latitude_range i N Hi); lra.
  - rewrite Hlat; pose proof (_compute_latitude_range i N Hi); lra.
  - intros j Hj; rewrite !Hlat; apply _compute_latitude_lt; lia.
Qed.

End WithConstants.
End LatticeFacts.

(** ** The sample count on a sphere, and the second lattice point *)

Module LatticeInputs.
Import PyFacts Points Derived Inputs.

Lemma cos_lt_1 x : 0 < x < PI -> cos x < 1.
Proof.
  intros [H0 H1]. rewrite <- cos_0.
  apply cos_decreasing_1; lra.
Qed.

(** On a sphere of radius [r], a distance below a quarter of the
    circumference gives at least two samples. *)
Lemma compute_number_samples_sphere r d :
  0 < r -> 0 < d -> d < 2 * r ->
  exists N, @Utils.compute_number_samples (sphere_constants r) d = Ok N
            /\ (2 <= N)%Z.
Proof.
  intros Hr Hd Hdr.
  set (x := d / r / 2).
  assert (Hx : 0 < x < 1).
  { unfold x. split.
    - apply Rdiv_lt_0_compat; [apply Rdiv_lt_0_compat |]; lra.
    - apply Rmult_lt_reg_r with (r := 2 * r); [lra |].
      replace (d / r / 2 * (2 * r)) with d by (field; lra). lra. }
  pose proof PI2_1 as HP. pose proof PI_RGT_0 as HPI.
  assert (Hc0 : 0 < cos x) by (apply cos_gt_0; lra).
  assert (Hc1 : cos x < 1) by (apply cos_lt_1; lra).
  set (area := 2 * PI * r * (r - r * cos x)).
  assert (Harea : 0 < area).
  { unfold area. apply Rmult_lt_0_compat; [| nra].
    apply Rmult_lt_0_compat; lra. }
  exists (int (4 * PI * (r * r) / area)). split.
  - unfold Utils.compute_number_samples, div; simpl.
    destruct (Req_dec_T r 0); [lra |]. simpl. fold x. fold area.
    destruct (Req_dec_T area 0); [lra | reflexivity].
  - assert (Hq : 4 * PI * (r * r) / area = 2 / (1 - cos x)).
    { unfold area; field; repeat split; try lra; nra. }
    rewrite Hq.
    assert (H2 : 2 <= 2 / (1 - cos x)).
    { apply Rmult_le_reg_r with (r := 1 - cos x); [lra |].
      unfold Rdiv; rewrite Rmult_assoc, Rinv_l by lra. lra. }
    rewrite int_nonneg by lra.
    apply Zfloor_lub. exact H2.
Qed.

Lemma wgs84_samples :
  exists N, @Utils.compute_number_samples wgs84 1000000 = Ok N /\ (2 <= N)%Z.
Proof.
  apply compute_number_samples_sphere; unfold wgs84_mean_radius; lra.
Qed.

Lemma sqrt5_bounds : 2.2 < sqrt 5 < 2.3.
Proof.
  assert (H : sqrt 5 * sqrt 5 = 5) by (apply sqrt_def; lra).
  pose proof (sqrt_pos 5). split; nra.
Qed.

Lemma golden_angle_bounds : 218 < golden_angle < 225.
Proof.
  pose proof sqrt5_bounds as [H1 H2]. unfold golden_angle.
  replace (360 * 1 / ((1 + sqrt 5) / 2)) with (720 / (1 + sqrt 5))
    by (field; lra).
  split.
  - apply Rmult_lt_reg_r with (r := 1 + sqrt 5); [lra |].
    unfold Rdiv; rewrite Rmult_assoc, Rinv_l by lra. lra.
  - apply Rmult_lt_reg_r with (r := 1 + sqrt 5); [lra |].
    unfold Rdiv; rewrite Rmult_assoc, Rinv_l by lra. lra.
Qed.

Lemma _compute_longitude_1 n : _compute_longitude 1 n = golden_angle - 360.
Proof.
  pose proof golden_angle_bounds as Hg.
  unfold _compute_longitude; fold golden_angle.
  assert (Hm : np_mod golden_angle 360 = golden_angle).
  { unfold np_mod. rewrite (Zfloor_eq 0); [lra |].
    split.
    - apply Rmult_le_reg_r with (r := 360); [lra |].
      unfold Rdiv; rewrite Rmult_assoc, Rinv_l by lra. lra.
    - apply Rmult_lt_reg_r with (r := 360); [lra |].
      unfold Rdiv; rewrite Rmult_assoc, Rinv_l by lra. lra. }
  rewrite Hm. destruct (Rlt_dec 180 golden_angle); [reflexivity | lra].
Qed.

End LatticeInputs.

(** ** The Fibonacci lattice under a mask *)

Module LatticeMaskFacts.
Import PyFacts Points Derived Inputs LatticeFacts LatticeInputs.


Section WithConstants.
Context {K : Constants}.

(** Every point returned under a mask comes from an index of
    [range(samples)], keeps that index as its id, has the closed-form
    latitude, and has the closed-form longitude, moved by +360 exactly when
    the mask reaches beyond 180 and the closed-form longitude is negative. *)
Lemma lattice_mask_In d M pts p :
  generate_fibonacci_lattice_points d (Some M) = Ok pts ->
  In p pts ->
  exists N,
    Utils.compute_number_samples d = Ok N /\
    (0 <= point_id p < N)%Z /\
    latitude p = _compute_latitude (point_id p) N /\
    ((longitude p = _compute_longitude (point_id p) N
      /\ ~ (180 < max_longitude_of (bounds M)
            /\ _compute_longitude (point_id p) N < 0))
     \/ (180 < max_longitude_of (bounds M)
         /\ _compute_longitude (point_id p) N < 0
         /\ longitude p = _compute_longitude (point_id p) N + 360)).
Proof.
  unfold generate_fibonacci_lattice_points.
  intros H Hp.
  apply bind_Ok_inv in H as (N & HN & H).
  apply bind_Ok_inv in H as (tb & Htb & H).
  simpl in Htb. destruct (is_valid M); [| discriminate].
  simpl in Htb. injection Htb as <-.
  destruct (bounds M) as [[[b0 b1] b2] b3].
  injection H as <-.
  unfold clip in Hp. apply filter_In in Hp as [Hp _].
  apply in_map_iff in Hp as (i & <- & Hi).
  apply filter_In in Hi as [Hi _]. apply range_In in Hi.
  exists N. simpl.
  split; [assumption |]. split; [lia |]. split; [reflexivity |].
  destruct (Rltb 180 (if Reqb b2 (-180) then 180 else b2)) eqn:E1; simpl.
  - destruct (Rltb (_compute_longitude i N) 0) eqn:E2.
    + right. apply Rltb_true in E1, E2. auto.
    + left. apply Rltb_false in E2. split; [reflexivity | lra].
  - left. apply Rltb_false in E1. split; [reflexivity | lra].
Qed.

End WithConstants.

(** On the WGS 84 sphere, at a spacing of 1000 km and under the mask
    [box(200, -90, 230, 90)], the point of index 1 is returned at longitude
    [360 / phi], beyond 180. *)
Lemma lattice_box_point :
  exists N pts,
    @Utils.compute_number_samples wgs84 1000000 = Ok N /\
    (2 <= N)%Z /\
    @generate_fibonacci_lattice_points wgs84 1000000
      (Some (box 200 (-90) 230 90)) = Ok pts /\
    In {| point_id := 1; longitude := golden_angle;
          latitude := _compute_latitude 1 N |} pts.
Proof.
  destruct wgs84_samples as (N & HN & H2).
  pose proof golden_angle_bounds as Hg.
  pose proof (_compute_latitude_range 1 N ltac:(lia)) as Hlat.
  pose proof (_compute_longitude_1 N) as Hlon.
  exists N. eexists. split; [exact HN |]. split; [exact H2 |].
  unfold generate_fibonacci_lattice_points. rewrite HN.
  cbn [bind total_bounds box is_valid bounds negb is_not_None andb].
  assert (E : Reqb 230 (-180) = false) by (apply Reqb_false; lra).
  rewrite E.
  assert (E1 : Rltb 180 230 = true) by (apply Rltb_true; lra).
  rewrite E1. cbn [andb].
  split; [reflexivity |].
  unfold clip. apply filter_In. split.
  - apply in_map_iff. exists 1%Z. split.
    + rewrite Hlon.
      assert (E2 : Rltb (golden_angle - 360) 0 = true) by (apply Rltb_true; lra).
      rewrite E2. f_equal. lra.
    + apply filter_In. split; [apply range_In; lia |].
      rewrite Hlon.
      assert (E2 : Rltb (golden_angle - 360) 0 = true) by (apply Rltb_true; lra).
      rewrite E2.
      replace (golden_angle - 360 + 360) with golden_angle by lra.
      repeat (apply andb_true_intro; split); apply Rleb_true; lra.
  - cbn [covers longitude latitude].
    repeat (apply andb_true_intro; split); apply Rleb_true; lra.
Qed.

End LatticeMaskFacts.

(** ** The fixed-step grid *)

Module GridFacts.
Import PyFacts Points Derived.

(** *** Row-major enumeration *)

Lemma grid_length {A B C : Type} (g : A -> B -> C) rows cols :
  length (flat_map (fun j => map (g j) cols) rows)
  = (length rows * length cols)%nat.
Proof.
  induction rows as [| a rows IH]; simpl; [reflexivity |].
  now rewrite length_app, length_map, IH.
Qed.

Lemma grid_nth_error {A B C : Type} (g : A -> B -> C) rows cols :
  forall jn kn a b,
    nth_error rows jn = Some a ->
    nth_error cols kn = Some b ->
    nth_error (flat_map (fun j => map (g j) cols) rows)
              (jn * length cols + kn)
    = Some (g a b).
Proof.
  induction rows as [| a0 rows IH]; intros jn kn a b Ha Hb.
  - destruct jn; discriminate.
  - destruct jn as [| jn]; simpl in *.
    + injection Ha as ->.
      rewrite nth_error_app1
        by (rewrite length_map; apply nth_error_Some; congruence).
      now rewrite nth_error_map, Hb.
    + rewrite nth_error_app2 by (rewrite length_map; lia).
      rewrite length_map.
      replace (length cols + jn * length cols + kn - length cols)%nat
        with (jn * length cols + kn)%nat by lia.
      now apply IH.
Qed.

Lemma grid_In {A B C : Type} (g : A -> B -> C) rows cols c :
  In c (flat_map (fun j => map (g j) cols) rows) <->
  exists a b, In a rows /\ In b cols /\ c = g a b.
Proof.
  rewrite in_flat_map. split.
  - intros (a & Ha & Hc). apply in_map_iff in Hc as (b & <- & Hb). eauto.
  - intros (a & b & Ha & Hb & ->). exists a. split; [assumption |].
    apply in_map_iff; eauto.
Qed.

(** *** The index ranges *)

Lemma round_half_even_0 : round_half_even 0 = 0%Z.
Proof. apply round_half_even_eq; lra. Qed.

Lemma column_start theta : theta <> 0 ->
  int (np_round ((-180 + 180) / theta)) = 0%Z.
Proof.
  intros H; rewrite int_np_round.
  replace ((-180 + 180) / theta) with 0 by (field; assumption).
  apply round_half_even_0.
Qed.

Lemma row_start theta : theta <> 0 ->
  int (np_round ((-90 + 90) / theta)) = 0%Z.
Proof.
  intros H; rewrite int_np_round.
  replace ((-90 + 90) / theta) with 0 by (field; assumption).
  apply round_half_even_0.
Qed.

(** With no mask the frame is the row-major list of all cells. *)
Lemma cubed_no_mask theta_longitude theta_latitude :
  theta_longitude <> 0 -> theta_latitude <> 0 ->
  _generate_cubed_sphere_points theta_longitude theta_latitude None
  = Ok (map (cell theta_longitude theta_latitude)
          (flat_map
             (fun j => map (fun i => (i, j))
                (range 0 (round_half_even (360 / theta_longitude))))
             (range 0 (round_half_even (180 / theta_latitude))))).
Proof.
  intros Hlon Hlat. unfold _generate_cubed_sphere_points.
  cbn [bind total_bounds].
  assert (E : Reqb 180 (-180) = false) by (apply Reqb_false; lra).
  rewrite E.
  apply Reqb_false in Hlon, Hlat. rewrite Hlon, Hlat. cbn [orb].
  apply Reqb_false in Hlon, Hlat.
  rewrite column_start, row_start by assumption.
  rewrite !int_np_round.
  replace ((180 + 180) / theta_longitude) with (360 / theta_longitude)
    by (field; assumption).
  replace ((90 + 90) / theta_latitude) with (180 / theta_latitude)
    by (field; assumption).
  reflexivity.
Qed.

End GridFacts.

Module GridClaims.
Import PyFacts Points Derived GridFacts.

Lemma cubed_nth theta_longitude theta_latitude cols rows i j :
  (0 <= i < cols)%Z -> (0 <= j < rows)%Z ->
  nth_error
    (map (cell theta_longitude theta_latitude)
       (flat_map (fun j => map (fun i => (i, j)) (range 0 cols))
                 (range 0 rows)))
    (Z.to_nat (j * cols + i))
  = Some (cell theta_longitude theta_latitude (i, j)).
Proof.
  intros Hi Hj.
  rewrite nth_error_map.
  replace (Z.to_nat (j * cols + i))
    with (Z.to_nat j * length (range 0 cols) + Z.to_nat i)%nat
    by (rewrite range_length; nia).
  rewrite (grid_nth_error (fun j i => (i, j)) _ _ _ _ j i); [reflexivity | |].
  - rewrite range_nth_error by lia. f_equal; lia.
  - rewrite range_nth_error by lia. f_equal; lia.
Qed.

Lemma cubed_length theta_longitude theta_latitude cols rows :
  (0 <= cols)%Z -> (0 <= rows)%Z ->
  length
    (map (cell theta_longitude theta_latitude)
       (flat_map (fun j => map (fun i => (i, j)) (range 0 cols))
                 (range 0 rows)))
  = Z.to_nat (cols * rows).
Proof.
  intros Hc Hr.
  rewrite length_map, (grid_length (fun j i => (i, j))), !range_length. nia.
Qed.

Lemma round_half_even_nonneg x : 0 <= x -> (0 <= round_half_even x)%Z.
Proof.
  intros H. pose proof (round_half_even_floor x).
  pose proof (Zfloor_lub 0 x H). lia.
Qed.

Section WithConstants.
Context {K : Constants}.

Lemma theta_pos d :
  0 < d -> 0 < earth_mean_radius -> 0 < np_degrees (d / earth_mean_radius).
Proof.
  intros Hd Hr. unfold np_degrees.
  apply Rmult_lt_0_compat; apply Rdiv_lt_0_compat;
    try assumption; try lra; apply PI_RGT_0.
Qed.

Lemma generate_cubed_sphere_points_theta d mask :
  earth_mean_radius <> 0 ->
  generate_cubed_sphere_points d mask
  = _generate_cubed_sphere_points
      (np_degrees (d / earth_mean_radius))
      (np_degrees (d / earth_mean_radius)) mask.
Proof.
  intros H. unfold generate_cubed_sphere_points, div.
  destruct (Req_dec_T earth_mean_radius 0); [contradiction | reflexivity].
Qed.

(** C6. For a positive distance and no mask, with [theta] the angular step
    [degrees(distance / mean Earth radius)], the grid has [cols * rows]
    points where [cols] is [floor(360/theta)] or one more and [rows] is
    [floor(180/theta)] or one more; the point of column [i] and row [j] sits
    at longitude [-180 + (i + 0.5) theta] and latitude
    [-90 + (j + 0.5) theta], so neighbours in a row or in a column are
    exactly [theta] apart. *)
Theorem C6_grid_count_and_spacing (d : R) :
  0 < d -> 0 < earth_mean_radius ->
  let theta := np_degrees (d / earth_mean_radius) in
  exists (cols rows : Z) (pts : list point),
    generate_cubed_sphere_points d None = Ok pts /\
    (Zfloor (360 / theta) <= cols <= Zfloor (360 / theta) + 1)%Z /\
    (Zfloor (180 / theta) <= rows <= Zfloor (180 / theta) + 1)%Z /\
    length pts = Z.to_nat (cols * rows) /\
    (forall i j, (0 <= i < cols)%Z -> (0 <= j < rows)%Z ->
       exists p,
         nth_error pts (Z.to_nat (j * cols + i)) = Some p /\
         longitude p = -180 + (IZR i + 0.5) * theta /\
         latitude p = -90 + (IZR j + 0.5) * theta) /\
    (forall i j p q, (0 <= i)%Z -> (i + 1 < cols)%Z -> (0 <= j < rows)%Z ->
       nth_error pts (Z.to_nat (j * cols + i)) = Some p ->
       nth_error pts (Z.to_nat (j * cols + (i + 1))) = Some q ->
       longitude q - longitude p = theta /\ latitude q = latitude p) /\
    (forall i j p q, (0 <= i < cols)%Z -> (0 <= j)%Z -> (j + 1 < rows)%Z ->
       nth_error pts (Z.to_nat (j * cols + i)) = Some p ->
       nth_error pts (Z.to_nat ((j + 1) * cols + i)) = Some q ->
       latitude q - latitude p = theta /\ longitude q = longitude p).
Proof.
  intros Hd Hr theta.
  assert (Ht : 0 < theta) by (apply theta_pos; assumption).
  assert (H360 : 0 <= 360 / theta) by (apply Rlt_le, Rdiv_lt_0_compat; lra).
  assert (H180 : 0 <= 180 / theta) by (apply Rlt_le, Rdiv_lt_0_compat; lra).
  exists (round_half_even (360 / theta)), (round_half_even (180 / theta)).
  eexists. split.
  { rewrite generate_cubed_sphere_points_theta by lra.
    apply cubed_no_mask; fold theta; lra. }
  subst theta. set (theta := np_degrees (d / earth_mean_radius)) in *.
  set (cols := round_half_even (360 / theta)).
  set (rows := round_half_even (180 / theta)).
  assert (Hc : (0 <= cols)%Z) by (apply round_half_even_nonneg, H360).
  assert (Hw : (0 <= rows)%Z) by (apply round_half_even_nonneg, H180).
  split; [apply round_half_even_floor |].
  split; [apply round_half_even_floor |].
  split; [apply cubed_length; assumption |].
  split; [| split].
  - intros i j Hi Hj. eexists. split; [apply cubed_nth; assumption |].
    split; reflexivity.
  - intros i j p q Hi0 Hi1 Hj Hp Hq.
    rewrite cubed_nth in Hp, Hq by lia.
    injection Hp as <-. injection Hq as <-. simpl.
    rewrite plus_IZR. split; [lra | reflexivity].
  - intros i j p q Hi Hj0 Hj1 Hp Hq.
    rewrite cubed_nth in Hp, Hq by lia.
    injection Hp as <-. injection Hq as <-. simpl.
    rewrite plus_IZR. split; [lra | reflexivity].
Qed.

End WithConstants.

(** *** Flattened ids *)

(** For a step of at most 360 degrees the id of the cell [(i, j)] is
    [j * floor(360/theta) + i mod floor(360/theta)]. *)
Lemma _compute_id_formula theta i j :
  0 < theta <= 360 ->
  _compute_id i j theta theta
  = (j * Zfloor (360 / theta) + i mod Zfloor (360 / theta))%Z.
Proof.
  intros [H0 H1]. unfold _compute_id.
  assert (H : 1 <= 360 / theta).
  { apply Rmult_le_reg_r with (r := theta); [assumption |].
    unfold Rdiv; rewrite Rmult_assoc, Rinv_l by lra. lra. }
  rewrite int_nonneg by lra.
  pose proof (Zfloor_lub 1 _ H) as Hn.
  unfold np_mod_int. destruct (Z.eqb_spec (Zfloor (360 / theta)) 0); [lia |].
  reflexivity.
Qed.

(** Whenever [360/theta] is rounded up to one column more than
    [int(360/theta)], the first and the last cell of the first row get the
    same id. *)
Lemma duplicate_ids_when_rounded_up theta n :
  0 < theta ->
  int (360 / theta) = n -> (1 <= n)%Z ->
  round_half_even (360 / theta) = (n + 1)%Z ->
  (1 <= round_half_even (180 / theta))%Z ->
  exists pts p q,
    _generate_cubed_sphere_points theta theta None = Ok pts /\
    nth_error pts 0 = Some p /\
    nth_error pts (Z.to_nat n) = Some q /\
    point_id p = point_id q /\
    longitude q - longitude p = IZR n * theta.
Proof.
  intros Ht Hn Hn1 Hcols Hrows.
  eexists. exists (cell theta theta (0, 0)%Z), (cell theta theta (n, 0)%Z).
  split; [apply cubed_no_mask; lra |].
  rewrite Hcols.
  split; [| split; [| split]].
  - apply (cubed_nth theta theta (n + 1) _ 0 0); lia.
  - replace (Z.to_nat n) with (Z.to_nat (0 * (n + 1) + n)) by (f_equal; lia).
    apply cubed_nth; lia.
  - simpl. unfold _compute_id, np_mod_int. rewrite Hn.
    destruct (Z.eqb_spec n 0); [lia |].
    rewrite Z.mod_same by lia. rewrite Z.mod_0_l by lia. reflexivity.
  - simpl. lra.
Qed.

(** *** A step of 100 degrees *)

Lemma cubed_100_columns : round_half_even (360 / 100) = 4%Z.
Proof. apply round_half_even_eq; lra. Qed.

Lemma cubed_100_rows : round_half_even (180 / 100) = 2%Z.
Proof. apply round_half_even_eq; lra. Qed.

Lemma cubed_100_multiplier : int (360 / 100) = 3%Z.
Proof. apply int_eq; lra. Qed.

(** C7. With an angular step of 100 degrees and no mask the grid has four
    columns ([round(3.6)]) but ids are flattened with the multiplier
    [int(3.6) = 3]: the generated ids are 0 1 2 0 3 4 5 3, so the first and
    the fourth cell of each row, 300 degrees of longitude apart, carry the
    same [point_id] and the ids of one call are not pairwise distinct. *)
Theorem C7_duplicate_point_id :
  exists pts,
    _generate_cubed_sphere_points 100 100 None = Ok pts /\
    map point_id pts = [0; 1; 2; 0; 3; 4; 5; 3]%Z /\
    map longitude pts = [-130; -30; 70; 170; -130; -30; 70; 170] /\
    map latitude pts = [-40; -40; -40; -40; 60; 60; 60; 60] /\
    ~ NoDup (map point_id pts).
Proof.
  eexists. split; [apply cubed_no_mask; lra |].
  rewrite cubed_100_columns, cubed_100_rows.
  change (range 0 4) with [0; 1; 2; 3]%Z.
  change (range 0 2) with [0; 1]%Z.
  cbn [flat_map map app cell point_id longitude latitude].
  unfold _compute_id. rewrite cubed_100_multiplier.
  assert (Hid : [(0 * 3 + np_mod_int 0 3)%Z; (0 * 3 + np_mod_int 1 3)%Z;
                 (0 * 3 + np_mod_int 2 3)%Z; (0 * 3 + np_mod_int 3 3)%Z;
                 (1 * 3 + np_mod_int 0 3)%Z; (1 * 3 + np_mod_int 1 3)%Z;
                 (1 * 3 + np_mod_int 2 3)%Z; (1 * 3 + np_mod_int 3 3)%Z]
                = [0; 1; 2; 0; 3; 4; 5; 3]%Z) by reflexivity.
  rewrite Hid.
  split; [reflexivity |].
  split; [repeat (f_equal; try lra) |].
  split; [repeat (f_equal; try lra) |].
  intros HN. inversion HN as [| ? ? Hnotin _]; subst.
  apply Hnotin. simpl. auto.
Qed.

End GridClaims.

(** ** Coordinate ranges and masks *)

Module RangeClaims.
Import PyFacts Points Derived Inputs LatticeFacts LatticeInputs LatticeMaskFacts.
Import GridFacts GridClaims.


(** Every returned grid point is a cell whose indices lie in the two
    ranges derived from the bounds. *)
Lemma cubed_In theta_longitude theta_latitude mask pts p :
  _generate_cubed_sphere_points theta_longitude theta_latitude mask = Ok pts ->
  In p pts ->
  exists b0 b1 b2 b3 i j,
    total_bounds mask = Ok (b0, b1, b2, b3) /\
    p = cell theta_longitude theta_latitude (i, j) /\
    (round_half_even ((b0 + 180) / theta_longitude) <= i
     < round_half_even
         ((max_longitude_of (b0, b1, b2, b3) + 180) / theta_longitude))%Z /\
    (round_half_even ((b1 + 90) / theta_latitude) <= j
     < round_half_even ((b3 + 90) / theta_latitude))%Z.
Proof.
  unfold _generate_cubed_sphere_points. intros H Hp.
  apply bind_Ok_inv in H as (tb & Htb & H).
  destruct tb as [[[b0 b1] b2] b3].
  destruct (Reqb theta_longitude 0 || Reqb theta_latitude 0); [discriminate |].
  rewrite !int_np_round in H.
  assert (Hin : In p (map (cell theta_longitude theta_latitude)
            (flat_map
               (fun j => map (fun i => (i, j))
                  (range (round_half_even ((b0 + 180) / theta_longitude))
                     (round_half_even
                        ((max_longitude_of (b0, b1, b2, b3) + 180)
                         / theta_longitude))))
               (range (round_half_even ((b1 + 90) / theta_latitude))
                  (round_half_even ((b3 + 90) / theta_latitude)))))).
  { destruct mask as [m |]; injection H as <-.
    - unfold clip in Hp. apply filter_In in Hp as [Hp _]. exact Hp.
    - exact Hp. }
  apply in_map_iff in Hin as ([i j] & <- & Hij).
  apply (grid_In (fun j i => (i, j))) in Hij as (j' & i' & Hj & Hi & E).
  injection E as -> ->.
  apply range_In in Hi, Hj.
  exists b0, b1, b2, b3, i', j'. auto.
Qed.


Section WithConstants.
Context {K : Constants}.



(** C2, as the code has it. A point returned under a mask has the id and
    the latitude of the point of the same id generated with no mask; its
    longitude is that point's longitude too, unless the mask's bounds reach
    beyond 180 and that longitude is negative, in which case it is returned
    360 degrees further east. *)
Theorem C2_mask_stability (d : R) (M : Mask) (pts : list point) (p : point) :
  generate_fibonacci_lattice_points d (Some M) = Ok pts ->
  In p pts ->
  exists pts0 q,
    generate_fibonacci_lattice_points d None = Ok pts0 /\
    nth_error pts0 (Z.to_nat (point_id p)) = Some q /\
    point_id q = point_id p /\
    latitude q = latitude p /\
    ((longitude p = longitude q
      /\ ~ (180 < max_longitude_of (bounds M) /\ longitude q < 0))
     \/ (180 < max_longitude_of (bounds M) /\ longitude q < 0
         /\ longitude p = longitude q + 360)).
Proof.
  intros H Hp.
  destruct (lattice_mask_In d M pts p H Hp) as (N & HN & Hi & Hlat & Hlon).
  eexists. eexists. split; [apply (lattice_no_mask d N HN) |].
  split.
  { rewrite nth_error_map, range_nth_error by lia.
    simpl. rewrite Z2Nat.id by lia. reflexivity. }
  simpl. split; [reflexivity |]. split; [now rewrite Hlat |]. exact Hlon.
Qed.

End WithConstants.
End RangeClaims.

(** ** The samplers on the WGS 84 sphere at a spacing of 1000 km *)

Module PointsExamples.
Import PyFacts Points Derived Inputs LatticeFacts LatticeInputs LatticeMaskFacts.
Import GridFacts GridClaims RangeClaims.

Lemma wgs84_radius_pos : 0 < @earth_mean_radius wgs84.
Proof. simpl; unfold wgs84_mean_radius; lra. Qed.

Lemma C1_witness :
  exists N pts,
    @Utils.compute_number_samples wgs84 1000000 = Ok N /\
    @generate_fibonacci_lattice_points wgs84 1000000 None = Ok pts /\
    length pts = Z.to_nat N.
Proof.
  destruct wgs84_samples as (N & HN & _).
  destruct (@LatticeFacts.C1_lattice_closed_form wgs84 1000000 N HN)
    as (pts & Hpts & Hlen & _).
  exists N, pts. auto.
Defined.

(** Under the mask [box(200, -90, 230, 90)] the point of id 1 is returned
    at longitude [360 / phi], about 222.49; with no mask the point of id 1
    is at [360 / phi - 360]. *)
Lemma C2_counterexample :
  exists pts pts0 p q,
    @generate_fibonacci_lattice_points wgs84 1000000
      (Some (box 200 (-90) 230 90)) = Ok pts /\
    @generate_fibonacci_lattice_points wgs84 1000000 None = Ok pts0 /\
    In p pts /\ In q pts0 /\
    point_id p = point_id q /\
    longitude p <> longitude q.
Proof.
  destruct lattice_box_point as (N & pts & HN & H2 & Hpts & Hin).
  exists pts. eexists. eexists. eexists.
  split; [exact Hpts |].
  split; [apply (@lattice_no_mask wgs84 _ N HN) |].
  split; [exact Hin |].
  split.
  { apply in_map_iff. exists 1%Z. split; [reflexivity |].
    apply range_In. lia. }
  simpl. split; [reflexivity |].
  rewrite _compute_longitude_1. lra.
Qed.

Lemma C2_witness :
  exists pts p pts0 q,
    @generate_fibonacci_lattice_points wgs84 1000000
      (Some (box 200 (-90) 230 90)) = Ok pts /\
    In p pts /\
    @generate_fibonacci_lattice_points wgs84 1000000 None = Ok pts0 /\
    nth_error pts0 (Z.to_nat (point_id p)) = Some q /\
    point_id q = point_id p /\
    latitude q = latitude p.
Proof.
  destruct lattice_box_point as (N & pts & _ & _ & Hpts & Hin).
  destruct (@RangeClaims.C2_mask_stability wgs84 1000000 _ pts _ Hpts Hin)
    as (pts0 & q & H0 & Hq & Hid & Hlat & _).
  exists pts. eexists. exists pts0, q. eauto 10.
Defined.



Lemma C6_witness :
  0 < 1000000 /\ 0 < @earth_mean_radius wgs84 /\
  exists pts, @generate_cubed_sphere_points wgs84 1000000 None = Ok pts.
Proof.
  assert (Hd : 0 < 1000000) by lra.
  split; [exact Hd |]. split; [exact wgs84_radius_pos |].
  destruct (@GridClaims.C6_grid_count_and_spacing wgs84 1000000 Hd
              wgs84_radius_pos) as (cols & rows & pts & H & _).
  exists pts. exact H.
Defined.

End PointsExamples.

(** ** Polygon splitting and wrapping *)

Module GeometryFacts.
Import PyFacts Shapely Utils.

(** *** Comprehensions *)


Lemma mapM_Ok {A B : Type} (f : A -> result B) (g : A -> B) l :
  (forall a, In a l -> f a = Ok (g a)) -> mapM f l = Ok (map g l).
Proof.
  induction l as [| a l IH]; intros H; simpl; [reflexivity |].
  rewrite (H a) by (left; reflexivity). simpl.
  rewrite IH by (intros b Hb; apply H; right; exact Hb). reflexivity.
Qed.

Lemma mapM_map_Ok {A B C : Type} (h : A -> B) (f : B -> result C)
    (g : A -> C) l :
  (forall a, In a l -> f (h a) = Ok (g a)) ->
  mapM f (map h l) = Ok (map g l).
Proof.
  induction l as [| a l IH]; intros H; simpl; [reflexivity |].
  rewrite (H a) by (left; reflexivity). simpl.
  rewrite IH by (intros b Hb; apply H; right; exact Hb). reflexivity.
Qed.

Lemma mapM_Raise {A B : Type} (f : A -> result B) e l :
  (forall a, In a l -> f a = Raise e \/ exists b, f a = Ok b) ->
  (exists a, In a l /\ f a = Raise e) ->
  mapM f l = Raise e.
Proof.
  induction l as [| a l IH]; intros Hall (a0 & Hin & Hr); [destruct Hin |].
  simpl. destruct (Hall a (or_introl eq_refl)) as [-> | (b & Hb)];
    [reflexivity |].
  rewrite Hb. simpl.
  rewrite IH; [reflexivity | intros; apply Hall; right; assumption |].
  destruct Hin as [<- | Hin]; [congruence | eauto].
Qed.

(** *** The Polygon constructor *)

Lemma ring_of_floats (f g : coord -> R) (cs : list coord) :
  ring_of (map (fun c => (PyFloat (f c), PyFloat (g c))) cs)
  = Ok (map (fun c => (f c, g c)) cs).
Proof.
  unfold ring_of. induction cs as [| c cs IH]; simpl; [reflexivity |].
  simpl in IH. rewrite IH. reflexivity.
Qed.

Lemma Polygon_new_floats (f g : coord -> R) (p : Polygon) :
  Polygon_new
    (map (fun c => (PyFloat (f c), PyFloat (g c))) (exterior p))
    (map (fun i => map (fun c => (PyFloat (f c), PyFloat (g c))) i)
         (interiors p))
  = Ok {| exterior := map (fun c => (f c, g c)) (exterior p);
          interiors := map (map (fun c => (f c, g c))) (interiors p) |}.
Proof.
  unfold Polygon_new. rewrite ring_of_floats. simpl.
  rewrite (mapM_map_Ok _ ring_of (map (fun c => (f c, g c)))).
  - reflexivity.
  - intros cs _. apply ring_of_floats.
Qed.

(** A ring with a tuple for an ordinate is rejected, unless it is empty. *)
Lemma ring_of_tuple (f : coord -> list R) (g : coord -> pyval) cs :
  cs <> [] ->
  ring_of (map (fun c => (PyTuple (f c), g c)) cs) = Raise TypeError.
Proof. destruct cs as [| c cs]; [congruence | reflexivity]. Qed.

Lemma ring_of_tuple_total (f : coord -> list R) (g : coord -> pyval) cs :
  ring_of (map (fun c => (PyTuple (f c), g c)) cs) = Raise TypeError
  \/ exists r, ring_of (map (fun c => (PyTuple (f c), g c)) cs) = Ok r.
Proof. destruct cs as [| c cs]; [right; exists []; reflexivity | now left]. Qed.

(** *** Flattening *)

Lemma flatten_Polygons (ps : list Polygon) :
  flatten (map GPolygon ps) = Ok (GMultiPolygon ps).
Proof.
  unfold flatten, MultiPolygon_new.
  assert (H : flat_map geoms_or_self (map GPolygon ps) = map GPolygon ps).
  { induction ps as [| p ps IH]; simpl; [reflexivity | now rewrite IH]. }
  rewrite H.
  rewrite (mapM_Ok _ (fun g => match g with
                               | GPolygon p => p
                               | _ => {| exterior := []; interiors := [] |}
                               end)).
  - rewrite map_map, map_id. reflexivity.
  - intros g Hg. apply in_map_iff in Hg as (p & <- & _). reflexivity.
Qed.

(** *** Boolean tests on rings *)


Lemma diff_small_spec (l : list R) :
  forallb (fun d => Rltb (Rabs d) 180) (Np.diff l) = true <->
  (forall i a b,
      nth_error l i = Some a -> nth_error l (S i) = Some b ->
      Rabs (b - a) < 180).
Proof.
  induction l as [| x l IH].
  - simpl. split; [intros _ [| i] a b H; discriminate | reflexivity].
  - destruct l as [| y l].
    + simpl. split; [| reflexivity].
      intros _ [| i] a b Ha Hb; simpl in *; [discriminate |].
      destruct i; discriminate.
    + change (Np.diff (x :: y :: l)) with ((y - x) :: Np.diff (y :: l)).
      cbn [forallb]. rewrite andb_true_iff, IH, Rltb_true. split.
      * intros [H0 H] [| i] a b Ha Hb.
        -- simpl in Ha, Hb. injection Ha as <-. injection Hb as <-. exact H0.
        -- apply (H i); assumption.
      * intros H. split.
        -- apply (H 0%nat); reflexivity.
        -- intros i a b Ha Hb. apply (H (S i)); assumption.
Qed.

End GeometryFacts.

Module GeometryClaims.
Import PyFacts Shapely Utils Inputs GeometryFacts.

Section WithEngine.
Context {E : GeometryEngine}.

(** *** Identity cases *)

Lemma _split_Polygon_antimeridian_id p :
  (forall i a b,
      nth_error (exterior p) i = Some a ->
      nth_error (exterior p) (S i) = Some b ->
      Rabs (fst b - fst a) < 180) ->
  _split_Polygon_antimeridian p = Ok (GPolygon p).
Proof.
  intros H. unfold _split_Polygon_antimeridian.
  replace (forallb _ _) with true; [reflexivity |].
  symmetry. apply diff_small_spec. intros i a b Ha Hb.
  rewrite nth_error_map in Ha, Hb. unfold coord in *.
  destruct (@nth_error (R * R) (exterior p) i) as [ca |] eqn:Ea;
    simpl in Ha; [| discriminate Ha].
  destruct (@nth_error (R * R) (exterior p) (S i)) as [cb |] eqn:Eb;
    simpl in Hb; [| discriminate Hb].
  injection Ha as <-. injection Hb as <-. now apply (H i).
Qed.

Lemma _split_Polygon_south_pole_id p :
  Forall (fun c => -90 <= snd c) (exterior p) ->
  _split_Polygon_south_pole p = Ok (GPolygon p).
Proof.
  intros H. unfold _split_Polygon_south_pole.
  replace (forallb _ _) with true; [reflexivity |].
  symmetry. apply forallb_forall. intros y Hy.
  apply in_map_iff in Hy as (c & <- & Hc).
  apply Rleb_true. rewrite Forall_forall in H. now apply H.
Qed.

Lemma _split_Polygon_north_pole_id p :
  Forall (fun c => snd c <= 90) (exterior p) ->
  _split_Polygon_north_pole p = Ok (GPolygon p).
Proof.
  intros H. unfold _split_Polygon_north_pole.
  replace (forallb _ _) with true; [reflexivity |].
  symmetry. apply forallb_forall. intros c Hc.
  apply Rleb_true. rewrite Forall_forall in H. now apply H.
Qed.

Lemma split_polygon_id p :
  (forall i a b,
      nth_error (exterior p) i = Some a ->
      nth_error (exterior p) (S i) = Some b ->
      Rabs (fst b - fst a) < 180) ->
  Forall (fun c => -90 <= snd c <= 90) (exterior p) ->
  split_polygon (GPolygon p) = Ok (GPolygon p).
Proof.
  intros Hlon Hlat. unfold split_polygon. simpl.
  rewrite _split_Polygon_antimeridian_id by assumption. simpl.
  rewrite _split_Polygon_south_pole_id
    by (eapply Forall_impl; [| exact Hlat]; simpl; intros; lra).
  simpl. apply _split_Polygon_north_pole_id.
  eapply Forall_impl; [| exact Hlat]; simpl; intros; lra.
Qed.

(** C8. A polygon whose coordinates all satisfy [-180 <= longitude <= 180]
    and [-90 <= latitude <= 90], and whose consecutive exterior vertices
    differ in longitude by less than 180 degrees, is returned unchanged by
    [split_polygon]. *)
Theorem C8_split_polygon_identity (p : Polygon) :
  Forall (fun c => -180 <= fst c <= 180 /\ -90 <= snd c <= 90)
         (exterior p ++ concat (interiors p)) ->
  (forall i a b,
      nth_error (exterior p) i = Some a ->
      nth_error (exterior p) (S i) = Some b ->
      Rabs (fst b - fst a) < 180) ->
  split_polygon (GPolygon p) = Ok (GPolygon p).
Proof.
  intros Hbox Hlon. apply split_polygon_id; [assumption |].
  apply Forall_app in Hbox as [Hext _].
  eapply Forall_impl; [| exact Hext]. simpl. intros c Hc. tauto.
Qed.

(** *** The wrap steps *)

Lemma forallb_false_of {A : Type} (f : A -> bool) l a :
  In a l -> f a = false -> forallb f l = false.
Proof.
  intros Hin Hf. destruct (forallb f l) eqn:F; [| reflexivity].
  rewrite forallb_forall in F. rewrite (F a Hin) in Hf. discriminate.
Qed.

(** The north-pole wrap of a Polygon never raises: it returns the
    reflected polygon when that is valid and the original otherwise. *)
Lemma _wrap_Polygon_over_north_pole_spec p :
  (exists c, In c (exterior p) /\ 90 < snd c) ->
  let shift :=
    if forallb (fun c => Rleb (fst c) 0) (exterior p) then 180 else -180 in
  let reflect := fun c : coord =>
    if Rleb 90 (snd c) then (fst c + shift, 180 - snd c) else c in
  let pgon := {| exterior := map reflect (exterior p);
                 interiors := map (map reflect) (interiors p) |} in
  _wrap_polygon_over_north_pole (GPolygon p)
  = Ok (GPolygon (if is_valid (GPolygon pgon) then pgon else p)).
Proof.
  intros (c & Hin & Hc) shift reflect pgon. simpl.
  unfold _wrap_Polygon_over_north_pole.
  rewrite (forallb_false_of _ _ c Hin) by (apply Rleb_false; exact Hc).
  fold shift.
  rewrite (Polygon_new_floats
             (fun c => if Rleb 90 (snd c) then fst c + shift else fst c)
             (fun c => if Rleb 90 (snd c) then 180 - snd c else snd c)).
  simpl.
  assert (Hmap : forall l,
             map (fun c : coord =>
                    (if Rleb 90 (snd c) then fst c + shift else fst c,
                     if Rleb 90 (snd c) then 180 - snd c else snd c)) l
             = map reflect l).
  { intros l. apply map_ext. intros [x y]. unfold reflect. simpl.
    destruct (Rleb 90 y); reflexivity. }
  rewrite Hmap.
  assert (Hints : map (map (fun c : coord =>
                    (if Rleb 90 (snd c) then fst c + shift else fst c,
                     if Rleb 90 (snd c) then 180 - snd c else snd c)))
                    (interiors p)
                  = map (map reflect) (interiors p)).
  { apply map_ext. intros l. apply Hmap. }
  rewrite Hints. fold pgon.
  destruct (is_valid (GPolygon pgon)); reflexivity.
Qed.

(** The south-pole wrap does the same on a Polygon without holes. *)
Lemma _wrap_Polygon_over_south_pole_spec p :
  (exists c, In c (exterior p) /\ snd c < -90) ->
  interiors p = [] ->
  let shift :=
    if forallb (fun c => Rleb (fst c) 0) (exterior p) then 180 else -180 in
  let reflect := fun c : coord =>
    if Rleb (snd c) (-90) then (fst c + shift, -180 - snd c) else c in
  let pgon := {| exterior := map reflect (exterior p); interiors := [] |} in
  _wrap_polygon_over_south_pole (GPolygon p)
  = Ok (GPolygon (if is_valid (GPolygon pgon) then pgon else p)).
Proof.
  intros (c & Hin & Hc) Hholes shift reflect pgon. simpl.
  unfold _wrap_Polygon_over_south_pole.
  rewrite (forallb_false_of _ _ c Hin) by (apply Rleb_false; exact Hc).
  fold shift. rewrite Hholes. unfold Polygon_new.
  rewrite (ring_of_floats
             (fun c => if Rleb (snd c) (-90) then fst c + shift else fst c)
             (fun c => if Rleb (snd c) (-90) then -180 - snd c else snd c)).
  simpl.
  assert (Hmap :
             map (fun c : coord =>
                    (if Rleb (snd c) (-90) then fst c + shift else fst c,
                     if Rleb (snd c) (-90) then -180 - snd c else snd c))
                 (exterior p)
             = map reflect (exterior p)).
  { apply map_ext. intros [x y]. unfold reflect. simpl.
    destruct (Rleb y (-90)); reflexivity. }
  rewrite Hmap. fold pgon.
  destruct (is_valid (GPolygon pgon)); reflexivity.
Qed.

(** C10. On a Polygon with an exterior vertex beyond the south pole and
    with a hole, the south-pole wrap does not shift and reflect the
    vertices: building the reflected polygon raises [TypeError], because
    the longitudes of the holes are wrapped in a tuple. *)
Theorem C10_south_wrap_raises_on_holes (p : Polygon) :
  (exists c, In c (exterior p) /\ snd c < -90) ->
  (exists ring, In ring (interiors p) /\ ring <> []) ->
  _wrap_polygon_over_south_pole (GPolygon p) = Raise TypeError.
Proof.
  intros (c & Hin & Hc) (ring & Hring & Hne). simpl.
  unfold _wrap_Polygon_over_south_pole.
  rewrite (forallb_false_of _ _ c Hin) by (apply Rleb_false; exact Hc).
  set (shift := if forallb _ _ then 180 else -180).
  unfold Polygon_new.
  rewrite (ring_of_floats
             (fun c => if Rleb (snd c) (-90) then fst c + shift else fst c)
             (fun c => if Rleb (snd c) (-90) then -180 - snd c else snd c)).
  cbn [bind].
  rewrite (mapM_Raise ring_of TypeError); [reflexivity | |].
  - intros cs Hcs. apply in_map_iff in Hcs as (i & <- & _).
    apply (ring_of_tuple_total
             (fun c => [if Rleb (snd c) (-90) then fst c + shift else fst c])
             (fun c => PyFloat (if Rleb (snd c) (-90) then -180 - snd c
                                else snd c))).
  - eexists. split; [apply in_map; exact Hring |].
    apply (ring_of_tuple
             (fun c => [if Rleb (snd c) (-90) then fst c + shift else fst c])
             (fun c => PyFloat (if Rleb (snd c) (-90) then -180 - snd c
                                else snd c))).
    exact Hne.
Qed.

(** The antimeridian wrap raises on every polygon that has vertices on
    both sides of 180 degrees. *)
Lemma antimeridian_wrap_unbound (p : Polygon) :
  (exists c, In c (exterior p) /\ fst c < 180) ->
  (exists c, In c (exterior p) /\ 180 < fst c) ->
  (exists c, In c (exterior p) /\ -180 < fst c) ->
  _wrap_polygon_over_antimeridian (GPolygon p) = Raise UnboundLocalError.
Proof.
  intros (a & Ha & Ha1) (b & Hb & Hb1) (c & Hc & Hc1). simpl.
  unfold _wrap_Polygon_over_antimeridian.
  rewrite (forallb_false_of _ _ b Hb)
    by (apply andb_false_iff; right; apply Rleb_false; exact Hb1).
  rewrite (forallb_false_of (fun c => Rleb (fst c) (-180)) _ c Hc)
    by (apply Rleb_false; exact Hc1).
  rewrite (forallb_false_of (fun c => Rleb 180 (fst c)) _ a Ha)
    by (apply Rleb_false; exact Ha1).
  reflexivity.
Qed.

(** C3. Two of the wrap steps raise on a Polygon.  The antimeridian wrap
    of a polygon lying on both sides of 180 degrees reads [pgon] before
    binding it; the south-pole wrap of a polygon with a hole hands the
    Polygon constructor a tuple where a longitude is due. *)
Theorem C3_wrap_steps_raise :
  _wrap_polygon_over_antimeridian (GPolygon rect_unwrapped)
    = Raise UnboundLocalError /\
  _wrap_polygon_over_south_pole (GPolygon south_cap_with_hole)
    = Raise TypeError.
Proof.
  split.
  - cbn [_wrap_polygon_over_antimeridian].
    unfold _wrap_Polygon_over_antimeridian.
    cbn [rect_unwrapped exterior interiors forallb fst snd map].
    decide_comparisons. reflexivity.
  - cbn [_wrap_polygon_over_south_pole].
    unfold _wrap_Polygon_over_south_pole.
    cbn [south_cap_with_hole exterior interiors forallb fst snd map].
    decide_comparisons. reflexivity.
Qed.

End WithEngine.
End GeometryClaims.

(** ** A rectangle across the antimeridian *)

Module AntimeridianClaims.
Import PyFacts Shapely Utils Inputs GeometryFacts GeometryClaims.

Section WithEngine.
Context {E : GeometryEngine}.




(** A polygon lying at or beyond 180 degrees is moved by -360 degrees,
    unless the moved polygon is invalid. *)
Lemma _wrap_Polygon_over_antimeridian_east p :
  Forall (fun c => 180 <= fst c) (exterior p) ->
  (exists c, In c (exterior p) /\ 180 < fst c) ->
  _wrap_Polygon_over_antimeridian p
  = Ok (GPolygon (if is_valid (GPolygon (shift_longitude (-360) p))
                  then shift_longitude (-360) p else p)).
Proof.
  intros Hall (c & Hin & Hc). unfold _wrap_Polygon_over_antimeridian.
  rewrite (forallb_false_of _ _ c Hin)
    by (apply andb_false_iff; right; apply Rleb_false; exact Hc).
  rewrite (forallb_false_of (fun c => Rleb (fst c) (-180)) _ c Hin)
    by (apply Rleb_false; lra).
  cbn [bind].
  replace (forallb (fun c => Rleb 180 (fst c)) (exterior p)) with true.
  2: { symmetry. apply forallb_forall. intros a Ha.
       rewrite Forall_forall in Hall. apply Rleb_true, Hall, Ha. }
  rewrite (Polygon_new_floats (fun c => fst c - 360) snd). cbn [bind].
  change {| exterior := map (fun c : coord => (fst c - 360, snd c))
                            (exterior p);
            interiors := map (map (fun c : coord => (fst c - 360, snd c)))
                             (interiors p) |}
    with (shift_longitude (-360) p).
  destruct (is_valid (GPolygon (shift_longitude (-360) p))); reflexivity.
Qed.



End WithEngine.
End AntimeridianClaims.

(** ** Validation errors *)

Module ValidationClaims.
Import PyFacts Shapely Utils Inputs GeometryFacts GeometryClaims.

Section WithEngineAndConstants.
Context {E : GeometryEngine} {K : Constants}.

(** C9, as the code has it. The split operations raise [ValueError] on a
    geometry that is neither a Polygon nor a MultiPolygon, and so does
    [normalize_geometry] on a GeoSeries or GeoDataFrame holding one;
    [normalize_geometry] raises [ValueError] on an invalid bare Polygon or
    MultiPolygon; the samplers raise [ValueError] on an invalid mask (the
    lattice sampler once the number of samples is computed).  A bare
    geometry of another kind goes through [normalize_geometry] unchanged,
    with no error. *)
Theorem C9_validation_errors :
  (forall g, is_Polygon_or_MultiPolygon g = false ->
     _split_polygon_antimeridian g = Raise ValueError /\
     _split_polygon_south_pole g = Raise ValueError /\
     _split_polygon_north_pole g = Raise ValueError /\
     split_polygon g = Raise ValueError /\
     normalize_geometry (GeoSeries [g]) = Raise ValueError /\
     normalize_geometry (GeoDataFrame [g]) = Raise ValueError /\
     normalize_geometry (Geometry g) = Ok (Geometry g)) /\
  (forall g, is_Polygon_or_MultiPolygon g = true -> is_valid g = false ->
     normalize_geometry (Geometry g) = Raise ValueError) /\
  (forall d N m, Points.is_valid m = false ->
     compute_number_samples d = Ok N ->
     Points.generate_fibonacci_lattice_points d (Some m) = Raise ValueError) /\
  (forall d m, Points.is_valid m = false -> earth_mean_radius <> 0 ->
     Points.generate_cubed_sphere_points d (Some m) = Raise ValueError).
Proof.
  split; [| split; [| split]].
  - intros g Hg.
    destruct g as [p | ps | cs | c]; try discriminate Hg;
      repeat split; reflexivity.
  - intros g Hg Hv. unfold normalize_geometry. rewrite Hg, Hv. reflexivity.
  - intros d N m Hm HN. unfold Points.generate_fibonacci_lattice_points.
    rewrite HN. simpl. rewrite Hm. reflexivity.
  - intros d m Hm Hr.
    unfold Points.generate_cubed_sphere_points, div.
    destruct (Req_dec_T earth_mean_radius 0); [contradiction |].
    simpl. unfold Points._generate_cubed_sphere_points. simpl.
    rewrite Hm. reflexivity.
Qed.

End WithEngineAndConstants.
End ValidationClaims.

(** ** The polygon operations on concrete inputs *)

Module GeometryExamples.
Import PyFacts Shapely Utils Inputs GeometryFacts GeometryClaims.
Import AntimeridianClaims ValidationClaims.



Lemma C8_witness :
  @split_polygon (cut_engine []) (GPolygon square) = Ok (GPolygon square).
Proof.
  apply (@GeometryClaims.C8_split_polygon_identity (cut_engine []) square).
  - unfold square; cbn [exterior interiors concat app].
    repeat (apply Forall_cons; [simpl; lra |]); apply Forall_nil.
  - intros i a b Ha Hb.
    do 5 (destruct i as [| i]; simpl in Ha, Hb;
          [try discriminate; injection Ha as <-; injection Hb as <-;
           simpl; unfold Rabs; destruct (Rcase_abs _); lra |]).
    destruct i; discriminate.
Defined.

(** [normalize_geometry] hands a LineString back, whatever the engine. *)
Lemma C9_counterexample :
  is_Polygon_or_MultiPolygon a_line = false /\
  forall E : GeometryEngine,
    @normalize_geometry E (Geometry a_line) = Ok (Geometry a_line).
Proof. split; [reflexivity | intros E; reflexivity]. Qed.

Lemma C9_witness :
  @split_polygon (cut_engine []) a_line = Raise ValueError /\
  @normalize_geometry (cut_engine []) (Geometry a_line)
  = Ok (Geometry a_line).
Proof.
  destruct (proj1 (@ValidationClaims.C9_validation_errors
                     (cut_engine []) wgs84) a_line eq_refl)
    as (_ & _ & _ & H1 & _ & _ & H2).
  split; assumption.
Defined.

Lemma C10_witness :
  @_wrap_polygon_over_south_pole (cut_engine [])
    (GPolygon south_cap_with_hole)
  = Raise TypeError.
Proof.
  apply (@GeometryClaims.C10_south_wrap_raises_on_holes (cut_engine [])
           south_cap_with_hole).
  - exists (0, -95). split; [simpl; auto | simpl; lra].
  - eexists. split; [simpl; left; reflexivity | discriminate].
Defined.

End GeometryExamples.

(** ** More on the lattice sampler *)

Module LatticeExtras.
Import PyFacts Points Derived Notions LatticeFacts LatticeMaskFacts Inputs.
Import LatticeInputs.

Lemma filter_filter_andb {A : Type} (f g : A -> bool) l :
  filter f (filter g l) = filter (fun a => g a && f a) l.
Proof.
  induction l as [| a l IH]; simpl; [reflexivity |].
  destruct (g a); simpl; [destruct (f a) |]; now rewrite IH.
Qed.

Lemma NoDup_map_injective {A B : Type} (f : A -> B) l :
  (forall a b, f a = f b -> a = b) -> NoDup l -> NoDup (map f l).
Proof.
  intros Hf Hl. induction Hl as [| a l Hin Hl IH]; simpl; constructor.
  - intros H. apply in_map_iff in H as (b & Hb & Hbl).
    apply Hf in Hb. subst b. contradiction.
  - exact IH.
Qed.

Lemma range_NoDup lo hi : NoDup (range lo hi).
Proof.
  unfold range. apply NoDup_map_injective; [| apply seq_NoDup].
  intros a b H. lia.
Qed.

Section WithConstants.
Context {K : Constants}.

(** The frame returned under a mask, written over the frame returned without
    one. *)
Lemma lattice_mask_as_filter d N M :
  Utils.compute_number_samples d = Ok N ->
  is_valid M = true ->
  generate_fibonacci_lattice_points d (Some M)
  = Ok (filter (fun p => in_box (bounds M) p
                         && covers M (longitude p) (latitude p))
          (map (wrap_east (bounds M))
             (map (fun i => {| point_id := i;
                               longitude := _compute_longitude i N;
                               latitude := _compute_latitude i N |})
                  (range 0 N)))).
Proof.
  intros HN HM. unfold generate_fibonacci_lattice_points.
  rewrite HN. cbn [bind total_bounds]. rewrite HM. cbn [negb bind].
  destruct (bounds M) as [[[b0 b1] b2] b3] eqn:Hb.
  cbn [is_not_None andb]. f_equal. unfold clip.
  set (maxlon := if Reqb b2 (-180) then 180 else b2).
  set (mk := fun i : Z => {| point_id := i;
                             longitude := _compute_longitude i N;
                             latitude := _compute_latitude i N |}).
  set (mk' := fun i : Z =>
                {| point_id := i;
                   longitude :=
                     if Rltb 180 maxlon && Rltb (_compute_longitude i N) 0
                     then _compute_longitude i N + 360
                     else _compute_longitude i N;
                   latitude := _compute_latitude i N |}).
  assert (Hmk : forall i, wrap_east (b0, b1, b2, b3) (mk i) = mk' i).
  { intros i. unfold wrap_east, mk, mk'.
    cbn [max_longitude_of longitude latitude point_id]. fold maxlon.
    destruct (Rltb 180 maxlon && Rltb (_compute_longitude i N) 0); reflexivity. }
  rewrite (map_map mk), (map_ext _ _ Hmk).
  rewrite !filter_map_swap, filter_filter_andb.
  f_equal.
Qed.

(** X1. Under a mask, the lattice sampler returns exactly the points of the
    unmasked frame (a negative longitude first moved east by 360 degrees
    when the bounds of the mask reach beyond 180) that pass the bounding-box
    test and that the mask covers: no returned point lies outside the mask
    or its bounding box, and no covered point of the box is dropped. *)
Theorem X1_masked_lattice_membership (d : R) (M : Mask)
    (pts0 pts : list point) (p : point) :
  generate_fibonacci_lattice_points d None = Ok pts0 ->
  generate_fibonacci_lattice_points d (Some M) = Ok pts ->
  In p pts <->
  (exists q, In q pts0 /\ p = wrap_east (bounds M) q)
  /\ in_box (bounds M) p = true
  /\ covers M (longitude p) (latitude p) = true.
Proof.
  intros H0 HM.
  destruct (Utils.compute_number_samples d) as [N | e] eqn:HN.
  2: { unfold generate_fibonacci_lattice_points in H0. rewrite HN in H0.
       discriminate. }
  assert (Hv : is_valid M = true).
  { unfold generate_fibonacci_lattice_points in HM. rewrite HN in HM.
    cbn [bind total_bounds] in HM.
    destruct (is_valid M); [reflexivity | discriminate]. }
  rewrite (lattice_mask_as_filter d N M HN Hv) in HM. injection HM as <-.
  rewrite (lattice_no_mask d N HN) in H0. injection H0 as <-.
  rewrite filter_In, andb_true_iff, in_map_iff. split.
  - intros ((q & <- & Hq) & Hb & Hc). split; [| split]; eauto.
  - intros ((q & Hq & ->) & Hb & Hc). split; [| split]; eauto.
Qed.

(** X2. The point ids of one lattice call are pairwise distinct, with or
    without a mask. *)
Theorem X2_lattice_ids_distinct (d : R) (mask : option Mask)
    (pts : list point) :
  generate_fibonacci_lattice_points d mask = Ok pts ->
  NoDup (map point_id pts).
Proof.
  intros H.
  destruct (Utils.compute_number_samples d) as [N | e] eqn:HN.
  2: { unfold generate_fibonacci_lattice_points in H. rewrite HN in H.
       discriminate. }
  destruct mask as [M |].
  - assert (Hv : is_valid M = true).
    { unfold generate_fibonacci_lattice_points in H. rewrite HN in H.
      cbn [bind total_bounds] in H.
      destruct (is_valid M); [reflexivity | discriminate]. }
    rewrite (lattice_mask_as_filter d N M HN Hv) in H. injection H as <-.
    rewrite map_map, filter_map_swap, map_map.
    erewrite map_ext.
    + rewrite map_id. apply NoDup_filter, range_NoDup.
    + intros i. unfold wrap_east. simpl.
      destruct (Rltb 180 _ && Rltb _ 0); reflexivity.
  - rewrite (lattice_no_mask d N HN) in H. injection H as <-.
    rewrite map_map. simpl. rewrite map_id. apply range_NoDup.
Qed.

End WithConstants.

Lemma X1_witness :
  exists pts0 pts,
    @generate_fibonacci_lattice_points wgs84 1000000 None = Ok pts0 /\
    @generate_fibonacci_lattice_points wgs84 1000000
      (Some (box 200 (-90) 230 90)) = Ok pts /\
    forall p,
      In p pts ->
      covers (box 200 (-90) 230 90) (longitude p) (latitude p) = true.
Proof.
  destruct lattice_box_point as (N & pts & HN & _ & Hpts & _).
  exists (map (fun i => {| point_id := i;
                           longitude := _compute_longitude i N;
                           latitude := _compute_latitude i N |})
              (range 0 N)), pts.
  pose proof (@lattice_no_mask wgs84 1000000 N HN) as H0.
  split; [exact H0 |]. split; [exact Hpts |].
  intros p Hp.
  exact (proj2 (proj2 (proj1
    (@X1_masked_lattice_membership wgs84 1000000 _ _ pts p H0 Hpts) Hp))).
Defined.

Lemma X2_witness :
  exists pts,
    @generate_fibonacci_lattice_points wgs84 1000000
      (Some (box 200 (-90) 230 90)) = Ok pts /\
    NoDup (map point_id pts).
Proof.
  destruct lattice_box_point as (N & pts & _ & _ & Hpts & _).
  exists pts. split; [exact Hpts |].
  exact (@X2_lattice_ids_distinct wgs84 1000000 _ pts Hpts).
Defined.

End LatticeExtras.

(** ** More on the grid sampler and on the number of samples *)

Module GridExtras.
Import PyFacts Points Derived Notions Inputs GridFacts GridClaims RangeClaims.

Lemma centroid_in_range theta lo hi k :
  0 < theta ->
  (round_half_even (lo / theta) <= k < round_half_even (hi / theta))%Z ->
  lo <= (IZR k + 0.5) * theta <= hi.
Proof.
  intros Ht [Hk1 Hk2].
  pose proof (round_half_even_bound (lo / theta)) as [Hl _].
  pose proof (round_half_even_bound (hi / theta)) as [_ Hh].
  apply IZR_le in Hk1.
  assert (H1 : IZR k + 1 <= IZR (round_half_even (hi / theta))).
  { rewrite <- succ_IZR. apply IZR_le. lia. }
  assert (El : lo = lo / theta * theta) by (field; lra).
  assert (Eh : hi = hi / theta * theta) by (field; lra).
  assert (Il : lo / theta * theta <= (IZR k + 0.5) * theta)
    by (apply Rmult_le_compat_r; lra).
  assert (Ih : (IZR k + 0.5) * theta <= hi / theta * theta)
    by (apply Rmult_le_compat_r; lra).
  rewrite <- El in Il. rewrite <- Eh in Ih. split; assumption.
Qed.

Lemma range_of_centroid theta lo hi k :
  0 < theta ->
  lo < (IZR k + 0.5) * theta < hi ->
  (round_half_even (lo / theta) <= k < round_half_even (hi / theta))%Z.
Proof.
  intros Ht [H1 H2].
  pose proof (round_half_even_bound (lo / theta)) as [_ Hl].
  pose proof (round_half_even_bound (hi / theta)) as [Hh _].
  assert (L : lo / theta < IZR k + 0.5).
  { apply Rmult_lt_reg_r with (r := theta); [assumption |].
    unfold Rdiv; rewrite Rmult_assoc, Rinv_l by lra. lra. }
  assert (U : IZR k + 0.5 < hi / theta).
  { apply Rmult_lt_reg_r with (r := theta); [assumption |].
    unfold Rdiv at 1; rewrite Rmult_assoc, Rinv_l by lra. lra. }
  split.
  - apply Z.lt_succ_r, lt_IZR. rewrite succ_IZR. lra.
  - apply lt_IZR. lra.
Qed.

(** X3. The bounding-box prefilter of the grid sampler is exact up to the
    boundary.  For positive steps, every returned point lies in the closed
    box [min_longitude, max_longitude] x [min_latitude, max_latitude] taken
    from the bounds; and every cell centroid strictly inside that box is
    returned, provided the mask (if any) covers it. *)
Theorem X3_grid_bounding_box (theta_longitude theta_latitude : R)
    (mask : option Mask) (pts : list point) (b0 b1 b2 b3 : R) :
  0 < theta_longitude -> 0 < theta_latitude ->
  total_bounds mask = Ok (b0, b1, b2, b3) ->
  _generate_cubed_sphere_points theta_longitude theta_latitude mask = Ok pts ->
  (forall p, In p pts ->
     b0 <= longitude p <= max_longitude_of (b0, b1, b2, b3)
     /\ b1 <= latitude p <= b3) /\
  (forall i j,
     let p := cell theta_longitude theta_latitude (i, j) in
     b0 < longitude p < max_longitude_of (b0, b1, b2, b3) ->
     b1 < latitude p < b3 ->
     match mask with
     | Some m => covers m (longitude p) (latitude p) = true
     | None => True
     end ->
     In p pts).
Proof.
  intros Hlon Hlat Htb H. split.
  - intros p Hp.
    destruct (cubed_In _ _ _ _ _ H Hp)
      as (c0 & c1 & c2 & c3 & i & j & Htb' & -> & Hi & Hj).
    rewrite Htb in Htb'. injection Htb' as <- <- <- <-.
    pose proof (centroid_in_range _ _ _ _ Hlon Hi) as Ci.
    pose proof (centroid_in_range _ _ _ _ Hlat Hj) as Cj.
    simpl. simpl in Ci. lra.
  - intros i j p Hx Hy Hc.
    assert (Ri : (round_half_even ((b0 + 180) / theta_longitude) <= i
                  < round_half_even
                      ((max_longitude_of (b0, b1, b2, b3) + 180)
                       / theta_longitude))%Z).
    { apply range_of_centroid; [assumption |]. unfold p in Hx. simpl in Hx.
      simpl. lra. }
    assert (Rj : (round_half_even ((b1 + 90) / theta_latitude) <= j
                  < round_half_even ((b3 + 90) / theta_latitude))%Z).
    { apply range_of_centroid; [assumption |]. unfold p in Hy. simpl in Hy.
      lra. }
    unfold _generate_cubed_sphere_points in H. rewrite Htb in H.
    cbn [bind] in H.
    assert (E1 : Reqb theta_longitude 0 = false) by (apply Reqb_false; lra).
    assert (E2 : Reqb theta_latitude 0 = false) by (apply Reqb_false; lra).
    rewrite E1, E2 in H. cbn [orb] in H. rewrite !int_np_round in H.
    assert (Hin : In p
              (map (fun '(i, j) =>
                      {| point_id :=
                           _compute_id i j theta_longitude theta_latitude;
                         longitude := -180 + (IZR i + 0.5) * theta_longitude;
                         latitude := -90 + (IZR j + 0.5) * theta_latitude |})
                 (flat_map
                    (fun j => map (fun i => (i, j))
                       (range (round_half_even ((b0 + 180) / theta_longitude))
                          (round_half_even
                             ((max_longitude_of (b0, b1, b2, b3) + 180)
                              / theta_longitude))))
                    (range (round_half_even ((b1 + 90) / theta_latitude))
                       (round_half_even ((b3 + 90) / theta_latitude)))))).
    { apply in_map_iff. exists (i, j). split; [reflexivity |].
      apply (grid_In (fun j i => (i, j))). exists j, i.
      split; [apply range_In; exact Rj |].
      split; [apply range_In; exact Ri | reflexivity]. }
    destruct mask as [m |]; injection H as <-.
    + unfold clip. apply filter_In. split; [exact Hin | exact Hc].
    + exact Hin.
Qed.

Lemma nth_error_None_ge {A : Type} (l : list A) n :
  (length l <= n)%nat -> nth_error l n = None.
Proof. apply nth_error_None. Qed.

(** The ids of the row-major frame when the number of columns is the
    multiplier of the ids. *)
Lemma grid_ids_of_frame theta n rows :
  (0 <= n)%Z -> (0 <= rows)%Z -> int (360 / theta) = n ->
  map point_id
    (map (cell theta theta)
       (flat_map (fun j => map (fun i => (i, j)) (range 0 n)) (range 0 rows)))
  = range 0 (n * rows).
Proof.
  intros Hn Hrows Hint.
  apply nth_error_ext. intros k.
  destruct (Nat.lt_ge_cases k (Z.to_nat (n * rows))) as [Hk | Hk].
  - rewrite range_nth_error by lia.
    assert (Hn0 : (0 < n)%Z) by nia.
    set (j := (Z.of_nat k / n)%Z). set (i := (Z.of_nat k mod n)%Z).
    assert (Hdiv : Z.of_nat k = (n * j + i)%Z)
      by (apply Z.div_mod; lia).
    assert (Hi : (0 <= i < n)%Z) by (apply Z.mod_pos_bound; lia).
    assert (Hj : (0 <= j < rows)%Z).
    { split; [apply Z.div_pos; lia |].
      apply Z.div_lt_upper_bound; lia. }
    replace k with (Z.to_nat (j * n + i)) by lia.
    rewrite nth_error_map, cubed_nth by assumption.
    simpl. unfold _compute_id, np_mod_int. rewrite Hint.
    destruct (Z.eqb_spec n 0); [lia |].
    rewrite Z.mod_small by assumption. f_equal. lia.
  - rewrite !nth_error_None_ge; [reflexivity | |].
    + rewrite range_length. lia.
    + rewrite length_map, cubed_length by assumption. lia.
Qed.

Section WithConstants.
Context {K : Constants}.

(** X4. When [360/theta] rounds to [int(360/theta)] (it is not rounded up),
    the ids of a grid generated without a mask are 0, 1, 2, ... in the order
    of the frame: one id per point, none repeated, none skipped. *)
Theorem X4_grid_ids_enumerate (d : R) :
  0 < d -> 0 < earth_mean_radius ->
  let theta := np_degrees (d / earth_mean_radius) in
  round_half_even (360 / theta) = int (360 / theta) ->
  exists pts,
    generate_cubed_sphere_points d None = Ok pts /\
    map point_id pts = range 0 (Z.of_nat (length pts)) /\
    NoDup (map point_id pts).
Proof.
  intros Hd Hr theta Hround.
  assert (Ht : 0 < theta) by (apply theta_pos; assumption).
  assert (H360 : 0 <= 360 / theta) by (apply Rlt_le, Rdiv_lt_0_compat; lra).
  assert (H180 : 0 <= 180 / theta) by (apply Rlt_le, Rdiv_lt_0_compat; lra).
  pose proof (round_half_even_nonneg _ H360) as Hc.
  pose proof (round_half_even_nonneg _ H180) as Hw.
  eexists. split.
  { rewrite generate_cubed_sphere_points_theta by lra.
    apply cubed_no_mask; fold theta; lra. }
  fold theta. rewrite Hround in *.
  assert (Hids := grid_ids_of_frame theta (int (360 / theta))
                    (round_half_even (180 / theta)) Hc Hw eq_refl).
  split.
  - rewrite Hids. f_equal. rewrite cubed_length by assumption. lia.
  - rewrite Hids. apply LatticeExtras.range_NoDup.
Qed.

(** X5. On a sphere of positive mean radius, the number of samples does not
    grow with the distance: for [0 < d1 <= d2] up to the circumference
    [2 pi R], both counts are defined, non-negative, and the count for [d2]
    is at most the count for [d1]. *)
Theorem X5_samples_antitone (d1 d2 : R) :
  0 < EARTH_MEAN_RADIUS -> 0 <= EARTH_SURFACE_AREA ->
  0 < d1 -> d1 <= d2 -> d2 <= 2 * PI * EARTH_MEAN_RADIUS ->
  exists N1 N2,
    Utils.compute_number_samples d1 = Ok N1 /\
    Utils.compute_number_samples d2 = Ok N2 /\
    (0 <= N2 <= N1)%Z.
Proof.
  intros HR HA H1 H12 H2.
  set (r := EARTH_MEAN_RADIUS) in *. set (a := EARTH_SURFACE_AREA) in *.
  pose proof PI_RGT_0 as HPI.
  assert (Hx : forall d, 0 < d -> d <= 2 * PI * r -> 0 < d / r / 2 <= PI).
  { intros d D0 D1. split.
    - apply Rdiv_lt_0_compat; [apply Rdiv_lt_0_compat |]; lra.
    - apply Rmult_le_reg_r with (r := 2 * r); [lra |].
      replace (d / r / 2 * (2 * r)) with d by (field; lra). lra. }
  pose proof (Hx d1 H1 ltac:(lra)) as X1.
  pose proof (Hx d2 ltac:(lra) H2) as X2.
  assert (X12 : d1 / r / 2 <= d2 / r / 2).
  { unfold Rdiv. apply Rmult_le_compat_r; [lra |].
    apply Rmult_le_compat_r; [apply Rlt_le, Rinv_0_lt_compat; lra | lra]. }
  assert (C1 : cos (d1 / r / 2) < 1).
  { rewrite <- cos_0. apply cos_decreasing_1; lra. }
  assert (C12 : cos (d2 / r / 2) <= cos (d1 / r / 2))
    by (apply cos_decr_1; lra).
  set (area1 := 2 * PI * r * (r - r * cos (d1 / r / 2))).
  set (area2 := 2 * PI * r * (r - r * cos (d2 / r / 2))).
  assert (HPr : 0 < 2 * PI * r) by (apply Rmult_lt_0_compat; lra).
  assert (A1 : 0 < area1) by (unfold area1; apply Rmult_lt_0_compat; nra).
  assert (A12 : area1 <= area2).
  { unfold area1, area2. apply Rmult_le_compat_l; [lra | nra]. }
  assert (Q2 : 0 <= a / area2).
  { apply Rmult_le_pos; [assumption |].
    apply Rlt_le, Rinv_0_lt_compat. lra. }
  assert (Q12 : a / area2 <= a / area1).
  { unfold Rdiv. apply Rmult_le_compat_l; [assumption |].
    apply Rinv_le_contravar; assumption. }
  exists (int (a / area1)), (int (a / area2)).
  assert (Hc : forall d area,
             area = 2 * PI * r * (r - r * cos (d / r / 2)) -> 0 < area ->
             Utils.compute_number_samples d = Ok (int (a / area))).
  { intros d area -> Hpos. unfold Utils.compute_number_samples, div.
    fold r. fold a.
    destruct (Req_dec_T r 0); [lra |]. cbn [bind].
    destruct (Req_dec_T _ 0); [lra | reflexivity]. }
  split; [apply Hc; [reflexivity | assumption] |].
  split; [apply Hc; [reflexivity | lra] |].
  rewrite !int_nonneg by lra.
  split; [apply (Zfloor_lub 0); exact Q2 | apply Zfloor_le; exact Q12].
Qed.

(** X6. A distance of zero makes the spherical cap empty: the number of
    samples raises [ZeroDivisionError], and so does the lattice sampler,
    whatever the mask, since it computes the number of samples before it
    looks at the mask. *)
Theorem X6_zero_distance_raises (mask : option Mask) :
  EARTH_MEAN_RADIUS <> 0 ->
  Utils.compute_number_samples 0 = Raise ZeroDivisionError /\
  generate_fibonacci_lattice_points 0 mask = Raise ZeroDivisionError.
Proof.
  intros HR.
  assert (H : Utils.compute_number_samples 0 = Raise ZeroDivisionError).
  { unfold Utils.compute_number_samples, div.
    destruct (Req_dec_T EARTH_MEAN_RADIUS 0); [contradiction |]. cbn [bind].
    replace (0 / EARTH_MEAN_RADIUS / 2) with 0 by (field; assumption).
    rewrite cos_0.
    destruct (Req_dec_T _ 0) as [_ | Hne]; [reflexivity |].
    exfalso. apply Hne. ring. }
  split; [exact H |].
  unfold generate_fibonacci_lattice_points. rewrite H. reflexivity.
Qed.

End WithConstants.

Lemma theta_quarter_turn :
  np_degrees (PI / 2 * wgs84_mean_radius / @earth_mean_radius wgs84) = 90.
Proof.
  simpl. unfold np_degrees, wgs84_mean_radius. field.
  split; [apply PI_neq0 | lra].
Qed.

Lemma X4_witness :
  exists pts,
    @generate_cubed_sphere_points wgs84 (PI / 2 * wgs84_mean_radius) None
      = Ok pts /\
    NoDup (map point_id pts).
Proof.
  assert (Hd : 0 < PI / 2 * wgs84_mean_radius).
  { pose proof PI_RGT_0. unfold wgs84_mean_radius. lra. }
  assert (Hr : 0 < @earth_mean_radius wgs84)
    by (simpl; unfold wgs84_mean_radius; lra).
  assert (Hround :
            round_half_even
              (360 / np_degrees (PI / 2 * wgs84_mean_radius
                                 / @earth_mean_radius wgs84))
            = int (360 / np_degrees (PI / 2 * wgs84_mean_radius
                                     / @earth_mean_radius wgs84))).
  { rewrite theta_quarter_turn.
    rewrite (round_half_even_eq 4) by lra.
    rewrite (int_eq 4) by lra. reflexivity. }
  destruct (@X4_grid_ids_enumerate wgs84 _ Hd Hr Hround)
    as (pts & H & _ & Hnd).
  exists pts. split; assumption.
Defined.

Lemma X5_witness :
  exists N1 N2,
    @Utils.compute_number_samples wgs84 500000 = Ok N1 /\
    @Utils.compute_number_samples wgs84 1000000 = Ok N2 /\
    (0 <= N2 <= N1)%Z.
Proof.
  pose proof PI_RGT_0 as HPI. pose proof PI2_1 as HP2.
  apply (@X5_samples_antitone wgs84 500000 1000000);
    simpl; unfold wgs84_mean_radius; lra.
Defined.

Lemma X6_witness :
  @generate_fibonacci_lattice_points wgs84 0 None = Raise ZeroDivisionError.
Proof.
  apply (@X6_zero_distance_raises wgs84 None).
  simpl; unfold wgs84_mean_radius; lra.
Defined.

Lemma X3_witness :
  exists pts,
    _generate_cubed_sphere_points 100 100 None = Ok pts /\
    forall p, In p pts ->
      -180 <= longitude p <= 180 /\ -90 <= latitude p <= 90.
Proof.
  assert (H1 : 0 < 100) by lra.
  assert (Htb : total_bounds None = Ok (-180, -90, 180, 90)) by reflexivity.
  assert (H : _generate_cubed_sphere_points 100 100 None
              = Ok (map (cell 100 100)
                      (flat_map
                         (fun j => map (fun i => (i, j))
                            (range 0 (round_half_even (360 / 100))))
                         (range 0 (round_half_even (180 / 100))))))
    by (apply cubed_no_mask; lra).
  eexists. split; [exact H |].
  intros p Hp.
  pose proof (proj1 (X3_grid_bounding_box 100 100 None _ _ _ _ _
                       H1 H1 Htb H) p Hp) as Hbox.
  assert (E : max_longitude_of (-180, -90, 180, 90) = 180).
  { simpl. assert (Reqb 180 (-180) = false) as -> by (apply Reqb_false; lra).
    reflexivity. }
  rewrite E in Hbox. exact Hbox.
Defined.

End GridExtras.

(** ** More on the polygon operations *)

Module GeometryExtras.
Import PyFacts Shapely Utils Inputs Notions GeometryFacts GeometryClaims.
Import AntimeridianClaims.

Section WithEngine.
Context {E : GeometryEngine}.

(** *** The shape of the results *)

Lemma mapM_Ok_inv {A B : Type} (f : A -> result B) l bs :
  mapM f l = Ok bs -> Forall2 (fun a b => f a = Ok b) l bs.
Proof.
  revert bs. induction l as [| a l IH]; simpl; intros bs H.
  - injection H as <-. constructor.
  - destruct (f a) as [b | e] eqn:Ha; [| discriminate]. simpl in H.
    destruct (mapM f l) as [bs' | e]; [| discriminate]. simpl in H.
    injection H as <-. constructor; [assumption | now apply IH].
Qed.

Lemma flatten_Ok_inv gs r :
  flatten gs = Ok r -> exists ps, r = GMultiPolygon ps.
Proof.
  unfold flatten, MultiPolygon_new. intros H.
  destruct (mapM _ _) as [ps | e]; [| discriminate].
  injection H as <-. eauto.
Qed.

Lemma _wrap_Polygon_over_north_pole_shape p r :
  _wrap_Polygon_over_north_pole p = Ok r -> exists q, r = GPolygon q.
Proof.
  unfold _wrap_Polygon_over_north_pole. intros H.
  destruct (forallb _ _); [injection H as <-; eauto |].
  destruct (Polygon_new _ _) as [pgon | e]; [| discriminate]. simpl in H.
  destruct (negb _); injection H as <-; eauto.
Qed.

Lemma _wrap_Polygon_over_south_pole_shape p r :
  _wrap_Polygon_over_south_pole p = Ok r -> exists q, r = GPolygon q.
Proof.
  unfold _wrap_Polygon_over_south_pole. intros H.
  destruct (forallb _ _); [injection H as <-; eauto |].
  destruct (Polygon_new _ _) as [pgon | e]; [| discriminate]. simpl in H.
  destruct (negb _); injection H as <-; eauto.
Qed.

Lemma _wrap_Polygon_over_antimeridian_shape p r :
  _wrap_Polygon_over_antimeridian p = Ok r -> exists q, r = GPolygon q.
Proof.
  unfold _wrap_Polygon_over_antimeridian. intros H.
  destruct (forallb _ _); [injection H as <-; eauto |].
  apply bind_Ok_inv in H as (o1 & _ & H).
  apply bind_Ok_inv in H as (o2 & _ & H).
  destruct o2 as [pgon |]; [| discriminate].
  destruct (negb _); injection H as <-; eauto.
Qed.

Lemma wrap_polygonal
    (wrapP : Polygon -> result geometry) (g r : geometry) :
  (forall p r, wrapP p = Ok r -> exists q, r = GPolygon q) ->
  match g with
  | GPolygon p => wrapP p
  | GMultiPolygon geoms => polygons <- mapM wrapP geoms ;; flatten polygons
  | _ => Raise ValueError
  end = Ok r ->
  is_Polygon_or_MultiPolygon r = true.
Proof.
  intros Hshape H. destruct g as [p | ps | cs | c]; try discriminate.
  - apply Hshape in H as (q & ->). reflexivity.
  - apply bind_Ok_inv in H as (polygons & _ & H).
    apply flatten_Ok_inv in H as (qs & ->). reflexivity.
Qed.

Lemma _wrap_polygon_over_north_pole_polygonal g r :
  _wrap_polygon_over_north_pole g = Ok r ->
  is_Polygon_or_MultiPolygon r = true.
Proof. apply wrap_polygonal, _wrap_Polygon_over_north_pole_shape. Qed.

Lemma _wrap_polygon_over_south_pole_polygonal g r :
  _wrap_polygon_over_south_pole g = Ok r ->
  is_Polygon_or_MultiPolygon r = true.
Proof. apply wrap_polygonal, _wrap_Polygon_over_south_pole_shape. Qed.

Lemma _wrap_polygon_over_antimeridian_polygonal g r :
  _wrap_polygon_over_antimeridian g = Ok r ->
  is_Polygon_or_MultiPolygon r = true.
Proof. apply wrap_polygonal, _wrap_Polygon_over_antimeridian_shape. Qed.

Lemma split_polygonal
    (splitP : Polygon -> result geometry) (g r : geometry) :
  (forall p r, splitP p = Ok r -> is_Polygon_or_MultiPolygon r = true) ->
  match g with
  | GPolygon p => splitP p
  | GMultiPolygon geoms => pgons <- mapM splitP geoms ;; flatten pgons
  | _ => Raise ValueError
  end = Ok r ->
  is_Polygon_or_MultiPolygon r = true.
Proof.
  intros Hshape H. destruct g as [p | ps | cs | c]; try discriminate.
  - now apply Hshape in H.
  - apply bind_Ok_inv in H as (polygons & _ & H).
    apply flatten_Ok_inv in H as (qs & ->). reflexivity.
Qed.

Lemma _split_polygon_north_pole_polygonal g r :
  _split_polygon_north_pole g = Ok r ->
  is_Polygon_or_MultiPolygon r = true.
Proof.
  apply split_polygonal. intros p r'. unfold _split_Polygon_north_pole.
  destruct (forallb _ _); [intros H; injection H as <-; reflexivity |].
  apply _wrap_polygon_over_north_pole_polygonal.
Qed.

Lemma _split_polygon_south_pole_polygonal g r :
  _split_polygon_south_pole g = Ok r ->
  is_Polygon_or_MultiPolygon r = true.
Proof.
  apply split_polygonal. intros p r'. unfold _split_Polygon_south_pole.
  destruct (forallb _ _); [intros H; injection H as <-; reflexivity |].
  apply _wrap_polygon_over_south_pole_polygonal.
Qed.

Lemma split_polygon_result_polygonal (g r : geometry) :
  split_polygon g = Ok r -> is_Polygon_or_MultiPolygon r = true.
Proof.
  unfold split_polygon. intros H.
  apply bind_Ok_inv in H as (a & Ha & H).
  apply bind_Ok_inv in H as (s & Hs & H).
  now apply _split_polygon_north_pole_polygonal in H.
Qed.

(** X7. Whatever [split_polygon] returns is a Polygon or a MultiPolygon,
    and a MultiPolygon input never comes back as a single Polygon: the
    stray lines and points of a cut never reach the caller, and nested
    MultiPolygons are flattened. *)
Theorem X7_split_polygon_polygonal (g r : geometry) :
  split_polygon g = Ok r ->
  is_Polygon_or_MultiPolygon r = true /\
  (forall ps, g = GMultiPolygon ps -> exists qs, r = GMultiPolygon qs).
Proof.
  intros H. split; [now apply split_polygon_result_polygonal in H |].
  unfold split_polygon in H.
  apply bind_Ok_inv in H as (a & Ha & H).
  apply bind_Ok_inv in H as (s & Hs & H).
  intros ps ->. simpl in Ha.
  apply bind_Ok_inv in Ha as (x & _ & Ha).
  apply flatten_Ok_inv in Ha as (as_ & ->). simpl in Hs.
  apply bind_Ok_inv in Hs as (y & _ & Hs).
  apply flatten_Ok_inv in Hs as (ss & ->). simpl in H.
  apply bind_Ok_inv in H as (z & _ & H).
  now apply flatten_Ok_inv in H.
Qed.

(** *** MultiPolygons that need no repair *)

Lemma mapM_split_id (splitP : Polygon -> result geometry) ps :
  Forall (fun p => splitP p = Ok (GPolygon p)) ps ->
  (polygons <- mapM splitP ps ;; flatten polygons) = Ok (GMultiPolygon ps).
Proof.
  intros H.
  rewrite (mapM_Ok splitP GPolygon)
    by (rewrite Forall_forall in H; exact H).
  cbn [bind]. apply flatten_Polygons.
Qed.

(** X8. A MultiPolygon each of whose parts has its exterior latitudes in
    [-90, 90] and no longitude jump of 180 degrees or more between
    consecutive exterior vertices is returned by [split_polygon] with the
    same parts in the same order. *)
Theorem X8_split_multipolygon_identity (ps : list Polygon) :
  Forall (fun p => no_jump p
                   /\ Forall (fun c => -90 <= snd c <= 90) (exterior p)) ps ->
  split_polygon (GMultiPolygon ps) = Ok (GMultiPolygon ps).
Proof.
  intros H. unfold split_polygon.
  cbn [_split_polygon_antimeridian].
  rewrite mapM_split_id.
  2: { eapply Forall_impl; [| exact H]. intros p [Hj _].
       now apply _split_Polygon_antimeridian_id. }
  cbn [bind _split_polygon_south_pole].
  rewrite mapM_split_id.
  2: { eapply Forall_impl; [| exact H]. intros p [_ Hl].
       apply _split_Polygon_south_pole_id.
       eapply Forall_impl; [| exact Hl]. simpl. intros; lra. }
  cbn [bind _split_polygon_north_pole].
  apply mapM_split_id.
  eapply Forall_impl; [| exact H]. intros p [_ Hl].
  apply _split_Polygon_north_pole_id.
  eapply Forall_impl; [| exact Hl]. simpl. intros; lra.
Qed.

(** *** [normalize_geometry] *)

(** X9. What [normalize_geometry] returns.  A bare Polygon or MultiPolygon
    is accepted only if valid and comes back as a one-row frame; a
    GeoSeries or GeoDataFrame comes back as a GeoDataFrame with as many
    rows; every row returned is [split_polygon] of the row received and is
    a Polygon or MultiPolygon; any other bare geometry comes back
    untouched. *)
Theorem X9_normalize_geometry_frame (obj r : pyobject) :
  normalize_geometry obj = Ok r ->
  match obj with
  | Geometry g =>
      if is_Polygon_or_MultiPolygon g
      then is_valid g = true
           /\ exists g', split_polygon g = Ok g'
                         /\ is_Polygon_or_MultiPolygon g' = true
                         /\ r = GeoDataFrame [g']
      else r = obj
  | GeoSeries rows | GeoDataFrame rows =>
      exists rows',
        r = GeoDataFrame rows'
        /\ length rows' = length rows
        /\ Forall2 (fun g g' => split_polygon g = Ok g'
                                /\ is_Polygon_or_MultiPolygon g' = true)
                   rows rows'
  end.
Proof.
  assert (Hrows : forall rows rows',
             mapM split_polygon rows = Ok rows' ->
             length rows' = length rows
             /\ Forall2 (fun g g' => split_polygon g = Ok g'
                                     /\ is_Polygon_or_MultiPolygon g' = true)
                        rows rows').
  { intros rows rows' H. apply mapM_Ok_inv in H.
    split; [symmetry; eapply Forall2_length; exact H |].
    eapply Forall2_impl; [| exact H]. intros g g' Hg. split; [exact Hg |].
    apply (split_polygon_result_polygonal g g' Hg). }
  unfold normalize_geometry. intros H.
  destruct obj as [g | rows | rows].
  - destruct (is_Polygon_or_MultiPolygon g) eqn:Hg.
    + destruct (is_valid g); [| discriminate]. cbn [negb bind] in H.
      apply bind_Ok_inv in H as (rows' & Hm & H). injection H as <-.
      destruct (Hrows _ _ Hm) as [Hlen HF].
      inversion HF as [| ? g' ? ? [Hs Hp] HF']; subst.
      inversion HF'; subst. split; [reflexivity |]. eauto.
    + cbn [bind] in H. now injection H as <-.
  - cbn [bind] in H. apply bind_Ok_inv in H as (rows' & Hm & H).
    injection H as <-. destruct (Hrows _ _ Hm). eauto.
  - cbn [bind] in H. apply bind_Ok_inv in H as (rows' & Hm & H).
    injection H as <-. destruct (Hrows _ _ Hm). eauto.
Qed.

(** X10. Validity is checked on a bare geometry only.  A GeoSeries or a
    GeoDataFrame whose rows are Polygons needing no repair is returned as a
    GeoDataFrame of the same rows whatever [is_valid] says of them, while
    the same polygon passed bare is refused when it is invalid. *)
Theorem X10_normalize_rows_not_validated (rows : list Polygon) :
  Forall (fun p => no_jump p
                   /\ Forall (fun c => -90 <= snd c <= 90) (exterior p))
         rows ->
  normalize_geometry (GeoSeries (map GPolygon rows))
    = Ok (GeoDataFrame (map GPolygon rows)) /\
  normalize_geometry (GeoDataFrame (map GPolygon rows))
    = Ok (GeoDataFrame (map GPolygon rows)) /\
  (forall p, In p rows ->
     normalize_geometry (Geometry (GPolygon p))
     = if is_valid (GPolygon p) then Ok (GeoDataFrame [GPolygon p])
       else Raise ValueError).
Proof.
  intros H.
  assert (Hid : forall p, In p rows ->
                  split_polygon (GPolygon p) = Ok (GPolygon p)).
  { intros p Hp. rewrite Forall_forall in H. destruct (H p Hp) as [Hj Hl].
    now apply split_polygon_id. }
  assert (Hm : mapM split_polygon (map GPolygon rows)
               = Ok (map GPolygon rows)).
  { apply mapM_map_Ok. exact Hid. }
  unfold normalize_geometry. cbn [bind]. rewrite Hm. cbn [bind].
  split; [reflexivity |]. split; [reflexivity |].
  intros p Hp. cbn [is_Polygon_or_MultiPolygon].
  destruct (is_valid (GPolygon p)); [| reflexivity].
  cbn [negb bind mapM]. rewrite (Hid p Hp). reflexivity.
Qed.

(** *** The pole wraps *)

Lemma north_reflection_below_pole (shift : R) (l : list coord) :
  Forall (fun c => snd c <= 90)
    (map (fun c : coord =>
            (if Rleb 90 (snd c) then fst c + shift else fst c,
             if Rleb 90 (snd c) then 180 - snd c else snd c)) l).
Proof.
  apply Forall_map, Forall_forall. intros [x y] _. simpl.
  destruct (Rleb 90 y) eqn:Hy.
  - apply Rleb_true in Hy. lra.
  - apply Rleb_false in Hy. lra.
Qed.

Lemma _wrap_Polygon_over_north_pole_total p :
  exists q,
    _wrap_Polygon_over_north_pole p = Ok (GPolygon q)
    /\ kept_or_repaired (fun c => snd c <= 90) p q.
Proof.
  unfold _wrap_Polygon_over_north_pole.
  destruct (forallb _ _); [exists p; split; [reflexivity | now left] |].
  set (shift := if forallb _ _ then 180 else -180).
  rewrite (Polygon_new_floats
             (fun c => if Rleb 90 (snd c) then fst c + shift else fst c)
             (fun c => if Rleb 90 (snd c) then 180 - snd c else snd c)).
  cbn [bind].
  match goal with |- context [is_valid (GPolygon ?pg)] => set (pgon := pg) end.
  destruct (is_valid (GPolygon pgon)) eqn:Hv; cbn [negb].
  - exists pgon. split; [reflexivity |]. right.
    split; [exact Hv |]. split; [apply length_map |].
    unfold vertices, pgon. cbn [exterior interiors].
    apply Forall_app. split; [apply north_reflection_below_pole |].
    apply Forall_concat, Forall_map, Forall_forall. intros ring _.
    apply north_reflection_below_pole.
  - exists p. split; [reflexivity | now left].
Qed.

(** X11. The north-pole wrap never raises on a Polygon or MultiPolygon.
    Each polygon comes back either as it was, or as a valid polygon with as
    many exterior vertices none of whose vertices, holes included, lies
    beyond 90 degrees of latitude; a MultiPolygon keeps the number and the
    order of its parts. *)
Theorem X11_north_wrap_total (g : geometry) :
  is_Polygon_or_MultiPolygon g = true ->
  exists r,
    _wrap_polygon_over_north_pole g = Ok r /\
    match g, r with
    | GPolygon p, GPolygon q => kept_or_repaired (fun c => snd c <= 90) p q
    | GMultiPolygon ps, GMultiPolygon qs =>
        Forall2 (kept_or_repaired (fun c => snd c <= 90)) ps qs
    | _, _ => False
    end.
Proof.
  intros Hg. destruct g as [p | ps | cs | c]; try discriminate.
  - destruct (_wrap_Polygon_over_north_pole_total p) as (q & Hq & Hk).
    exists (GPolygon q). split; assumption.
  - assert (H : exists qs,
               mapM _wrap_Polygon_over_north_pole ps = Ok (map GPolygon qs)
               /\ Forall2 (kept_or_repaired (fun c => snd c <= 90)) ps qs).
    { induction ps as [| p ps IH].
      - exists []. split; [reflexivity | constructor].
      - destruct (_wrap_Polygon_over_north_pole_total p) as (q & Hq & Hk).
        destruct IH as (qs & Hqs & HF); [reflexivity |].
        exists (q :: qs). simpl. rewrite Hq. cbn [bind]. rewrite Hqs.
        split; [reflexivity | now constructor]. }
    destruct H as (qs & Hqs & HF).
    exists (GMultiPolygon qs). cbn [_wrap_polygon_over_north_pole].
    rewrite Hqs. cbn [bind]. split; [apply flatten_Polygons | exact HF].
Qed.

Lemma south_reflection_above_pole (shift : R) (l : list coord) :
  Forall (fun c => -90 <= snd c)
    (map (fun c : coord =>
            (if Rleb (snd c) (-90) then fst c + shift else fst c,
             if Rleb (snd c) (-90) then -180 - snd c else snd c)) l).
Proof.
  apply Forall_map, Forall_forall. intros [x y] _. simpl.
  destruct (Rleb y (-90)) eqn:Hy.
  - apply Rleb_true in Hy. lra.
  - apply Rleb_false in Hy. lra.
Qed.

Lemma _wrap_Polygon_over_south_pole_total p :
  interiors p = [] ->
  exists q,
    _wrap_Polygon_over_south_pole p = Ok (GPolygon q)
    /\ kept_or_repaired (fun c => -90 <= snd c) p q.
Proof.
  intros Hholes. unfold _wrap_Polygon_over_south_pole.
  destruct (forallb _ _); [exists p; split; [reflexivity | now left] |].
  set (shift := if forallb _ _ then 180 else -180).
  rewrite Hholes. unfold Polygon_new.
  rewrite (ring_of_floats
             (fun c => if Rleb (snd c) (-90) then fst c + shift else fst c)
             (fun c => if Rleb (snd c) (-90) then -180 - snd c else snd c)).
  cbn [bind map mapM].
  match goal with |- context [is_valid (GPolygon ?pg)] => set (pgon := pg) end.
  destruct (is_valid (GPolygon pgon)) eqn:Hv; cbn [negb].
  - exists pgon. split; [reflexivity |]. right.
    split; [exact Hv |]. split; [apply length_map |].
    unfold vertices, pgon. cbn [exterior interiors concat].
    rewrite app_nil_r. apply south_reflection_above_pole.
  - exists p. split; [reflexivity | now left].
Qed.

(** X12. On polygons without holes the south-pole wrap never raises either.
    Each polygon comes back as it was, or as a valid polygon with as many
    exterior vertices none of which lies beyond -90 degrees of latitude; a
    MultiPolygon keeps the number and the order of its parts. *)
Theorem X12_south_wrap_total_without_holes (ps : list Polygon) :
  Forall (fun p => interiors p = []) ps ->
  (forall p, In p ps ->
     exists q, _wrap_polygon_over_south_pole (GPolygon p) = Ok (GPolygon q)
               /\ kept_or_repaired (fun c => -90 <= snd c) p q) /\
  exists qs,
    _wrap_polygon_over_south_pole (GMultiPolygon ps) = Ok (GMultiPolygon qs)
    /\ Forall2 (kept_or_repaired (fun c => -90 <= snd c)) ps qs.
Proof.
  intros H. split.
  - intros p Hp. rewrite Forall_forall in H.
    apply _wrap_Polygon_over_south_pole_total, H, Hp.
  - assert (Hm : exists qs,
               mapM _wrap_Polygon_over_south_pole ps = Ok (map GPolygon qs)
               /\ Forall2 (kept_or_repaired (fun c => -90 <= snd c)) ps qs).
    { induction H as [| p ps Hp _ IH].
      - exists []. split; [reflexivity | constructor].
      - destruct (_wrap_Polygon_over_south_pole_total p Hp) as (q & Hq & Hk).
        destruct IH as (qs & Hqs & HF).
        exists (q :: qs). simpl. rewrite Hq. cbn [bind]. rewrite Hqs.
        split; [reflexivity | now constructor]. }
    destruct Hm as (qs & Hqs & HF).
    exists qs. cbn [_wrap_polygon_over_south_pole].
    rewrite Hqs. cbn [bind]. split; [apply flatten_Polygons | exact HF].
Qed.

(** *** The antimeridian wrap *)

(** X13. The antimeridian wrap of a Polygon, when it returns, returns the
    polygon itself or the polygon moved by a whole turn: by -360 degrees
    only if every exterior vertex is at or beyond 180, by +360 degrees only
    if every exterior vertex is at or beyond -180, and in both cases only if
    the moved polygon is valid. *)
Theorem X13_antimeridian_wrap_outcomes (p : Polygon) (r : geometry) :
  _wrap_polygon_over_antimeridian (GPolygon p) = Ok r ->
  r = GPolygon p
  \/ (r = GPolygon (shift_longitude (-360) p)
      /\ is_valid r = true
      /\ Forall (fun c => 180 <= fst c) (exterior p))
  \/ (r = GPolygon (shift_longitude 360 p)
      /\ is_valid r = true
      /\ Forall (fun c => fst c <= -180) (exterior p)).
Proof.
  cbn [_wrap_polygon_over_antimeridian].
  unfold _wrap_Polygon_over_antimeridian. intros H.
  destruct (forallb (fun c => Rleb (-180) (fst c) && Rleb (fst c) 180) _);
    [injection H as <-; now left |].
  rewrite (Polygon_new_floats (fun c => fst c + 360) snd) in H.
  rewrite (Polygon_new_floats (fun c => fst c - 360) snd) in H.
  change {| exterior := map (fun c : coord => (fst c - 360, snd c))
                            (exterior p);
            interiors := map (map (fun c : coord => (fst c - 360, snd c)))
                             (interiors p) |}
    with (shift_longitude (-360) p) in H.
  change {| exterior := map (fun c : coord => (fst c + 360, snd c))
                            (exterior p);
            interiors := map (map (fun c : coord => (fst c + 360, snd c)))
                             (interiors p) |}
    with (shift_longitude 360 p) in H.
  destruct (forallb (fun c => Rleb 180 (fst c)) (exterior p)) eqn:Heast.
  - assert (HE : Forall (fun c => 180 <= fst c) (exterior p)).
    { apply Forall_forall. intros c Hc. rewrite forallb_forall in Heast.
      apply Rleb_true, Heast, Hc. }
    destruct (forallb (fun c => Rleb (fst c) (-180)) (exterior p));
      cbn [bind] in H;
      (destruct (is_valid (GPolygon (shift_longitude (-360) p))) eqn:Hv;
       cbn [negb] in H; injection H as <-; [right; left; auto | now left]).
  - destruct (forallb (fun c => Rleb (fst c) (-180)) (exterior p)) eqn:Hwest;
      cbn [bind] in H; [| discriminate].
    assert (HW : Forall (fun c => fst c <= -180) (exterior p)).
    { apply Forall_forall. intros c Hc. rewrite forallb_forall in Hwest.
      apply Rleb_true, Hwest, Hc. }
    destruct (is_valid (GPolygon (shift_longitude 360 p))) eqn:Hv;
      cbn [negb] in H; injection H as <-; [right; right; auto | now left].
Qed.

(** *** Unwrapping a ring that crosses the antimeridian *)

Lemma unwrap_from_cons2 acc c c' t :
  unwrap_from acc (c :: c' :: t)
  = (fst c - 360 * acc, snd c)
    :: unwrap_from (acc + np_round ((fst c' - fst c) / 360)) (c' :: t).
Proof. reflexivity. Qed.

Lemma unwrap_from_head acc c t :
  exists t', unwrap_from acc (c :: t) = (fst c - 360 * acc, snd c) :: t'.
Proof. destruct t as [| c' t]; eexists; reflexivity. Qed.

Lemma unwrap_from_congruent ext :
  forall acc (k : Z), acc = IZR k ->
    Forall2 (fun c c' : coord =>
               snd c' = snd c /\ exists k : Z, fst c' = fst c - 360 * IZR k)
            ext (unwrap_from acc ext).
Proof.
  induction ext as [| c ext IH]; intros acc k Hk; [constructor |].
  destruct ext as [| c' t].
  - constructor; [| constructor]. simpl. split; [reflexivity |].
    exists k. now rewrite Hk.
  - rewrite unwrap_from_cons2. constructor.
    + simpl. split; [reflexivity |]. exists k. now rewrite Hk.
    + apply (IH _ (k + round_half_even ((fst c' - fst c) / 360))%Z).
      unfold np_round. now rewrite plus_IZR, Hk.
Qed.

Lemma unwrap_from_small_steps ext :
  forall acc,
    Forall (fun d => Rabs d <= 180) (Np.diff (map fst (unwrap_from acc ext))).
Proof.
  induction ext as [| c ext IH]; intros acc; [constructor |].
  destruct ext as [| c' t]; [constructor |].
  rewrite unwrap_from_cons2.
  set (r := np_round ((fst c' - fst c) / 360)).
  specialize (IH (acc + r)).
  destruct (unwrap_from_head (acc + r) c' t) as (t' & Ht).
  rewrite Ht in *. cbn [map Np.diff fst] in *.
  constructor; [| exact IH].
  pose proof (round_half_even_bound ((fst c' - fst c) / 360)) as [B1 B2].
  fold (np_round ((fst c' - fst c) / 360)) in B1, B2. fold r in B1, B2.
  assert (Hd : fst c' - fst c = (fst c' - fst c) / 360 * 360) by (field; lra).
  apply Rabs_le. split; lra.
Qed.

(** X14. When the exterior ring has a longitude jump of 180 degrees or more,
    [_split_polygon_antimeridian] cuts (along 180 or -180 degrees) a polygon
    whose exterior ring is the given ring unwrapped: the same latitudes,
    every longitude moved by a whole number of turns, and no two consecutive
    vertices more than 180 degrees of longitude apart. *)
Theorem X14_antimeridian_unwrapping (p : Polygon) :
  ~ no_jump p ->
  exists (q : Polygon) (dir : R),
    (dir = 180 \/ dir = -180) /\
    _split_polygon_antimeridian (GPolygon p)
    = _wrap_polygon_over_antimeridian
        (_convert_collection_to_polygon
           (split (GPolygon q) [(dir, -180); (dir, 180)])) /\
    exterior q = unwrapped_exterior (exterior p) /\
    Forall2 (fun c c' : coord =>
               snd c' = snd c /\ exists k : Z, fst c' = fst c - 360 * IZR k)
            (exterior p) (exterior q) /\
    Forall (fun d => Rabs d <= 180) (Np.diff (map fst (exterior q))).
Proof.
  intros Hjump.
  assert (Hb : forallb (fun d => Rltb (Rabs d) 180)
                       (Np.diff (map fst (exterior p))) = false).
  { destruct (forallb _ _) eqn:F; [| reflexivity].
    exfalso. apply Hjump. unfold no_jump. intros i a b Ha Hb.
    apply (proj1 (diff_small_spec (map fst (exterior p))) F i).
    - rewrite nth_error_map. unfold coord in *. now rewrite Ha.
    - rewrite nth_error_map. unfold coord in *. now rewrite Hb. }
  cbn [_split_polygon_antimeridian]. unfold _split_Polygon_antimeridian.
  rewrite Hb.
  set (lon := map fst (exterior p)).
  set (shift := 0 :: Np.cumsum (map (fun d => np_round (d / 360))
                                    (Np.diff lon))).
  set (holes := map _ (interiors p)).
  assert (Hext : ring_of
                   (map (fun ic : coord * R =>
                           let '(c, shift_i) := ic in
                           (PyFloat (fst c - 360 * shift_i), PyFloat (snd c)))
                        (combine (exterior p) shift))
                 = Ok (unwrapped_exterior (exterior p))).
  { unfold unwrapped_exterior, unwrap_shift. fold lon. fold shift.
    generalize (combine (exterior p) shift). intros l.
    unfold ring_of. induction l as [| [c s0] l IH]; [reflexivity |].
    simpl. simpl in IH. rewrite IH. reflexivity. }
  assert (Hholes : exists ints, mapM ring_of holes = Ok ints).
  { unfold holes.
    eexists. apply (mapM_map_Ok _ ring_of
      (map (fun ic : coord =>
              (fst ic - 360 * Np.interp (fst ic) (Np.sort lon)
                          (Np.take_argsort lon shift),
               snd ic)))).
    intros ring _.
    apply (ring_of_floats
             (fun ic => fst ic - 360 * Np.interp (fst ic) (Np.sort lon)
                                   (Np.take_argsort lon shift))
             snd). }
  destruct Hholes as (ints & Hints).
  unfold Polygon_new. rewrite Hext. cbn [bind]. rewrite Hints. cbn [bind].
  exists {| exterior := unwrapped_exterior (exterior p); interiors := ints |}.
  exists (if Rleb 1 (Np.max shift) then -180 else 180).
  split; [destruct (Rleb 1 (Np.max shift)); auto |].
  split; [reflexivity |]. split; [reflexivity |]. cbn [exterior].
  split.
  - apply (unwrap_from_congruent (exterior p) 0 0). reflexivity.
  - apply (unwrap_from_small_steps (exterior p) 0).
Qed.

End WithEngine.
End GeometryExtras.

(** ** The further properties on concrete polygons *)

Module GeometryExtrasExamples.
Import PyFacts Shapely Utils Inputs Notions GeometryFacts GeometryClaims.
Import AntimeridianClaims GeometryExtras.

Lemma square_no_jump : no_jump square.
Proof.
  intros i a b Ha Hb.
  do 5 (destruct i as [| i]; simpl in Ha, Hb;
        [try discriminate; injection Ha as <-; injection Hb as <-;
         simpl; unfold Rabs; destruct (Rcase_abs _); lra |]).
  destruct i; discriminate.
Qed.

Lemma square_latitudes : Forall (fun c => -90 <= snd c <= 90) (exterior square).
Proof.
  unfold square; cbn [exterior].
  repeat (apply Forall_cons; [simpl; lra |]); apply Forall_nil.
Qed.

Lemma square_needs_no_repair :
  Forall (fun p => no_jump p
                   /\ Forall (fun c => -90 <= snd c <= 90) (exterior p))
         [square].
Proof.
  apply Forall_cons; [| apply Forall_nil].
  split; [exact square_no_jump | exact square_latitudes].
Qed.

Lemma split_square (E : GeometryEngine) :
  split_polygon (GPolygon square) = Ok (GPolygon square).
Proof. apply split_polygon_id; [exact square_no_jump | exact square_latitudes]. Qed.

Lemma rect_wrapped_jumps : ~ no_jump rect_wrapped.
Proof.
  intros H.
  specialize (H 0%nat (170, 0) (-170, 0) eq_refl eq_refl). simpl in H.
  unfold Rabs in H. destruct (Rcase_abs _); lra.
Qed.

Lemma X7_witness :
  is_Polygon_or_MultiPolygon (GPolygon square) = true /\
  @split_polygon (cut_engine []) (GPolygon square) = Ok (GPolygon square).
Proof.
  pose proof (split_square (cut_engine [])) as H.
  split; [| exact H].
  exact (proj1 (@X7_split_polygon_polygonal (cut_engine []) _ _ H)).
Defined.

Lemma X8_witness :
  @split_polygon (cut_engine []) (GMultiPolygon [square])
  = Ok (GMultiPolygon [square]).
Proof.
  exact (@X8_split_multipolygon_identity (cut_engine []) [square]
           square_needs_no_repair).
Defined.

Lemma X9_witness :
  exists rows',
    @normalize_geometry (cut_engine []) (GeoSeries [GPolygon square])
    = Ok (GeoDataFrame rows') /\
    length rows' = 1%nat.
Proof.
  assert (H : @normalize_geometry (cut_engine []) (GeoSeries [GPolygon square])
              = Ok (GeoDataFrame [GPolygon square])).
  { unfold normalize_geometry. cbn [bind mapM].
    rewrite (split_square (cut_engine [])). reflexivity. }
  destruct (@X9_normalize_geometry_frame (cut_engine []) _ _ H)
    as (rows' & Hr & Hlen & _).
  exists rows'. split; [rewrite H; f_equal; exact Hr | exact Hlen].
Defined.

Lemma X10_witness :
  @normalize_geometry (cut_engine []) (GeoDataFrame (map GPolygon [square]))
  = Ok (GeoDataFrame (map GPolygon [square])).
Proof.
  exact (proj1 (proj2 (@X10_normalize_rows_not_validated (cut_engine [])
                         [square] square_needs_no_repair))).
Defined.

Lemma X11_witness :
  exists r,
    @_wrap_polygon_over_north_pole (cut_engine []) (GPolygon square) = Ok r.
Proof.
  destruct (@X11_north_wrap_total (cut_engine []) (GPolygon square) eq_refl)
    as (r & Hr & _).
  exists r. exact Hr.
Defined.

Lemma X12_witness :
  exists qs,
    @_wrap_polygon_over_south_pole (cut_engine []) (GMultiPolygon [square])
    = Ok (GMultiPolygon qs).
Proof.
  assert (H : Forall (fun p => interiors p = []) [square])
    by (apply Forall_cons; [reflexivity | apply Forall_nil]).
  destruct (proj2 (@X12_south_wrap_total_without_holes (cut_engine [])
                     [square] H)) as (qs & Hqs & _).
  exists qs. exact Hqs.
Defined.

Lemma wrap_rect_east :
  @_wrap_polygon_over_antimeridian (cut_engine []) (GPolygon rect_east)
  = Ok (GPolygon (shift_longitude (-360) rect_east)).
Proof.
  cbn [_wrap_polygon_over_antimeridian].
  rewrite _wrap_Polygon_over_antimeridian_east.
  - reflexivity.
  - unfold rect_east; cbn [exterior].
    repeat (apply Forall_cons; [simpl; lra |]); apply Forall_nil.
  - exists (190, 0). split; [simpl; auto | simpl; lra].
Qed.

Lemma X13_witness :
  @_wrap_polygon_over_antimeridian (cut_engine []) (GPolygon rect_east)
  = Ok (GPolygon (shift_longitude (-360) rect_east)) /\
  Forall (fun c => 180 <= fst c) (exterior rect_east).
Proof.
  split; [exact wrap_rect_east |].
  destruct (@X13_antimeridian_wrap_outcomes (cut_engine []) rect_east _
              wrap_rect_east) as [H | [(_ & _ & H) | (_ & _ & H)]].
  - exfalso. injection H. intros. lra.
  - exact H.
  - exfalso. inversion H as [| c l Hc _]. simpl in Hc. lra.
Defined.

Lemma X14_witness :
  ~ no_jump rect_wrapped /\
  exists (q : Polygon),
    exterior q = unwrapped_exterior (exterior rect_wrapped) /\
    Forall (fun d => Rabs d <= 180) (Np.diff (map fst (exterior q))).
Proof.
  split; [exact rect_wrapped_jumps |].
  destruct (@X14_antimeridian_unwrapping (cut_engine []) rect_wrapped
              rect_wrapped_jumps) as (q & dir & _ & _ & Hq & _ & Hsmall).
  exists q. split; assumption.
Defined.

End GeometryExtrasExamples.

(** ** Anomalies, field of regard and ground track *)

Module NumericExtras.
Import PyFacts UtilsNumeric Inputs.

Lemma degrees_radians x : np_degrees (np_radians x) = x.
Proof. unfold np_degrees, np_radians. field. apply PI_neq0. Qed.

Lemma radians_degrees x : np_radians (np_degrees x) = x.
Proof. unfold np_degrees, np_radians. field. apply PI_neq0. Qed.

Lemma radians_plus_360 x : np_radians (x + 360) = np_radians x + 2 * PI.
Proof. unfold np_radians. field. Qed.

Lemma degrees_plus_2PI x : np_degrees (x + 2 * PI) = np_degrees x + 360.
Proof. unfold np_degrees. field. apply PI_neq0. Qed.

Lemma sin_plus_turns (x : R) (k : nat) : sin (x + INR k * (2 * PI)) = sin x.
Proof.
  replace (x + INR k * (2 * PI)) with (x + 2 * INR k * PI) by ring.
  apply sin_period.
Qed.

Lemma sin_multiple_plus_turn (n : nat) (x : R) :
  sin (INR n * (x + 2 * PI)) = sin (INR n * x).
Proof.
  replace (INR n * (x + 2 * PI)) with (INR n * x + INR n * (2 * PI)) by ring.
  apply sin_plus_turns.
Qed.

Lemma sin_multiple_PI (n : nat) : sin (INR n * PI) = 0.
Proof.
  induction n as [| n IH].
  - simpl. rewrite Rmult_0_l. apply sin_0.
  - rewrite S_INR.
    replace ((INR n + 1) * PI) with (INR n * PI + PI) by ring.
    rewrite neg_sin, IH. ring.
Qed.

(** X15. The two anomaly conversions are the identity on a circular orbit
    (eccentricity 0), hence inverse to each other there; for every
    eccentricity they map 0 to 0 and 180 to 180 degrees and commute with a
    full turn: adding 360 degrees to the argument adds 360 degrees to the
    result. *)
Theorem X15_anomaly_conversions (a e : R) :
  mean_anomaly_to_true_anomaly a 0 = a /\
  true_anomaly_to_mean_anomaly a 0 = a /\
  mean_anomaly_to_true_anomaly 0 e = 0 /\
  true_anomaly_to_mean_anomaly 0 e = 0 /\
  mean_anomaly_to_true_anomaly 180 e = 180 /\
  true_anomaly_to_mean_anomaly 180 e = 180 /\
  mean_anomaly_to_true_anomaly (a + 360) e
    = mean_anomaly_to_true_anomaly a e + 360 /\
  true_anomaly_to_mean_anomaly (a + 360) e
    = true_anomaly_to_mean_anomaly a e + 360.
Proof.
  assert (H0 : np_radians 0 = 0) by (unfold np_radians; ring).
  assert (H180 : np_radians 180 = PI) by (unfold np_radians; field).
  assert (S1 := sin_multiple_PI 1). assert (S2 := sin_multiple_PI 2).
  assert (S3 := sin_multiple_PI 3). assert (S4 := sin_multiple_PI 4).
  simpl in S1, S2, S3, S4.
  replace (1 * PI) with PI in S1 by ring.
  replace ((1 + 1) * PI) with (2 * PI) in S2 by ring.
  replace ((1 + 1 + 1) * PI) with (3 * PI) in S3 by ring.
  replace ((1 + 1 + 1 + 1) * PI) with (4 * PI) in S4 by ring.
  assert (T : forall (n : nat) x,
             sin (INR n * (x + 2 * PI)) = sin (INR n * x))
    by apply sin_multiple_plus_turn.
  assert (T1 := fun x => T 1%nat x). assert (T2 := fun x => T 2%nat x).
  assert (T3 := fun x => T 3%nat x). assert (T4 := fun x => T 4%nat x).
  simpl in T1, T2, T3, T4.
  assert (U1 : forall x, sin (x + 2 * PI) = sin x).
  { intros x. specialize (T1 x).
    replace (1 * (x + 2 * PI)) with (x + 2 * PI) in T1 by ring.
    replace (1 * x) with x in T1 by ring. exact T1. }
  assert (U2 : forall x, sin (2 * (x + 2 * PI)) = sin (2 * x)).
  { intros x. specialize (T2 x).
    replace ((1 + 1) * (x + 2 * PI)) with (2 * (x + 2 * PI)) in T2 by ring.
    replace ((1 + 1) * x) with (2 * x) in T2 by ring. exact T2. }
  assert (U3 : forall x, sin (3 * (x + 2 * PI)) = sin (3 * x)).
  { intros x. specialize (T3 x).
    replace ((1 + 1 + 1) * (x + 2 * PI)) with (3 * (x + 2 * PI)) in T3 by ring.
    replace ((1 + 1 + 1) * x) with (3 * x) in T3 by ring. exact T3. }
  assert (U4 : forall x, sin (4 * (x + 2 * PI)) = sin (4 * x)).
  { intros x. specialize (T4 x).
    replace ((1 + 1 + 1 + 1) * (x + 2 * PI)) with (4 * (x + 2 * PI))
      in T4 by ring.
    replace ((1 + 1 + 1 + 1) * x) with (4 * x) in T4 by ring. exact T4. }
  unfold mean_anomaly_to_true_anomaly, true_anomaly_to_mean_anomaly.
  repeat split.
  - transitivity (np_degrees (np_radians a));
      [f_equal; ring | apply degrees_radians].
  - transitivity (np_degrees (np_radians a));
      [f_equal; ring | apply degrees_radians].
  - rewrite H0. replace (2 * 0) with 0 by ring. replace (3 * 0) with 0 by ring.
    rewrite sin_0. unfold np_degrees. ring.
  - rewrite H0. replace (2 * 0) with 0 by ring. replace (3 * 0) with 0 by ring.
    replace (4 * 0) with 0 by ring.
    rewrite sin_0. unfold np_degrees. ring.
  - rewrite H180, S1, S2, S3. unfold np_degrees. field. apply PI_neq0.
  - rewrite H180, S1, S2, S3, S4. unfold np_degrees. field. apply PI_neq0.
  - rewrite radians_plus_360, U1, U2, U3.
    rewrite <- degrees_plus_2PI. f_equal. ring.
  - rewrite radians_plus_360, U1, U2, U3, U4.
    rewrite <- degrees_plus_2PI. f_equal. ring.
Qed.

Section WithConstants.
Context {K : Constants}.

(** X16. The minimum elevation angle and the field of regard determine each
    other.  For an instrument at or above the observed elevation
    ([0 < R + elevation <= R + altitude]) and an angle between 0 and 180
    degrees, [compute_field_of_regard] succeeds and
    [compute_min_elevation_angle] of its result gives the angle back. *)
Theorem X16_elevation_angle_round_trip (altitude elevation angle : R) :
  0 < EARTH_MEAN_RADIUS + elevation ->
  EARTH_MEAN_RADIUS + elevation <= EARTH_MEAN_RADIUS + altitude ->
  0 <= angle <= 180 ->
  exists field_of_regard,
    compute_field_of_regard altitude angle elevation = Ok field_of_regard /\
    compute_min_elevation_angle altitude field_of_regard elevation = Ok angle.
Proof.
  intros Hel Halt Hang.
  remember (EARTH_MEAN_RADIUS + elevation) as re eqn:Ere.
  remember (EARTH_MEAN_RADIUS + altitude) as ra eqn:Era.
  pose proof PI_RGT_0 as HPI.
  assert (Hrho : 0 < re / ra <= 1).
  { split; [apply Rdiv_lt_0_compat; lra |].
    apply Rmult_le_reg_r with (r := ra); [lra |].
    unfold Rdiv; rewrite Rmult_assoc, Rinv_l by lra. lra. }
  assert (Hrad : 0 <= np_radians angle <= PI).
  { unfold np_radians. split.
    - apply Rmult_le_pos; [lra |]. apply Rlt_le, Rdiv_lt_0_compat; lra.
    - replace PI with (180 * (PI / 180)) at 2 by field.
      apply Rmult_le_compat_r; [apply Rlt_le, Rdiv_lt_0_compat; lra | lra]. }
  pose proof (COS_bound (np_radians angle)) as Hcos.
  remember (cos (np_radians angle)) as c eqn:Ec.
  assert (Heta : -1 <= re / ra * c <= 1) by (split; nra).
  assert (Hra : ra <> 0) by lra.
  assert (Hrho0 : re / ra <> 0) by lra.
  exists (np_degrees (asin (re / ra * c) * 2)). split.
  - unfold compute_field_of_regard, div. rewrite <- Ere, <- Era, <- Ec.
    destruct (Req_dec_T ra 0); [contradiction |]. cbn [bind]. reflexivity.
  - unfold compute_min_elevation_angle, div. rewrite <- Ere, <- Era.
    destruct (Req_dec_T ra 0); [contradiction |]. cbn [bind].
    destruct (Req_dec_T (re / ra) 0); [contradiction |]. cbn [bind].
    rewrite radians_degrees.
    replace (asin (re / ra * c) * 2 / 2) with (asin (re / ra * c)) by field.
    rewrite sin_asin by exact Heta.
    replace (re / ra * c / (re / ra)) with c by (field; split; lra).
    destruct (Rlt_dec 1 c); [lra |].
    rewrite Ec, acos_cos by exact Hrad.
    now rewrite degrees_radians.
Qed.

Context {O : OrbitConstants}.

(** X17. Access time and along-track distance are converted with the ground
    velocity of [compute_ground_velocity], and the two conversions undo
    each other: when that velocity [v] is defined and not zero, a distance
    [d] takes the time [d / v], and that time covers the distance [d]
    again. *)
Theorem X17_along_track_round_trip (altitude inclination d v : R) :
  0 <= EARTH_MU / (EARTH_MEAN_RADIUS + altitude) ^ 3 ->
  compute_ground_velocity altitude inclination = Ok v ->
  v <> 0 ->
  along_track_distance_to_access_time altitude inclination d = Ok (d / v) /\
  access_time_to_along_track_distance altitude inclination (d / v) = Ok d /\
  access_time_to_along_track_distance altitude inclination d = Ok (v * d).
Proof.
  intros _ Hv Hne.
  unfold compute_ground_velocity in Hv.
  unfold along_track_distance_to_access_time,
    access_time_to_along_track_distance.
  destruct (div EARTH_MU _) as [q | e]; [| discriminate]. cbn [bind] in *.
  destruct (div (2 * PI * _) _) as [w | e]; [| discriminate]. cbn [bind] in *.
  injection Hv as Hv. rewrite Hv.
  split; [| split].
  - unfold div. destruct (Req_dec_T v 0); [contradiction | reflexivity].
  - f_equal. field. exact Hne.
  - reflexivity.
Qed.

End WithConstants.

Lemma X16_witness :
  exists field_of_regard,
    @compute_field_of_regard wgs84 400000 20 0 = Ok field_of_regard /\
    @compute_min_elevation_angle wgs84 400000 field_of_regard 0 = Ok 20.
Proof.
  apply (@X16_elevation_angle_round_trip wgs84 400000 0 20);
    simpl; unfold wgs84_mean_radius; lra.
Defined.

(** The ground velocity of an equatorial orbit (inclination 0) of
    semi-major axis 7000 km. *)
Lemma ground_velocity_7000km :
  exists v,
    @compute_ground_velocity wgs84 earth_orbit
      (7000000 - wgs84_mean_radius) 0 = Ok v /\
    0 < v /\
    0 <= @EARTH_MU earth_orbit
         / (@EARTH_MEAN_RADIUS wgs84 + (7000000 - wgs84_mean_radius)) ^ 3.
Proof.
  assert (Ha : @EARTH_MEAN_RADIUS wgs84 + (7000000 - wgs84_mean_radius)
               = 7000000) by (simpl; ring).
  pose proof PI_RGT_0 as HPI. pose proof PI_4 as HP4.
  assert (Hq : 0.001 * 0.001 < 398600441800000 / 7000000 ^ 3).
  { lra. }
  assert (Hs : 0.001 < sqrt (398600441800000 / 7000000 ^ 3)).
  { rewrite <- (sqrt_square 0.001) at 1 by lra.
    apply sqrt_lt_1; lra. }
  assert (Hw : 2 * PI * 1 / 86164.0905 < 0.001).
  { lra. }
  exists (wgs84_mean_radius
          * (sqrt (398600441800000 / 7000000 ^ 3) - 2 * PI * 1 / 86164.0905)).
  split; [| split].
  - unfold compute_ground_velocity, div. rewrite Ha.
    cbn [EARTH_MU EARTH_SIDEREAL_DAY_S earth_orbit].
    destruct (Req_dec_T (7000000 ^ 3) 0); [lra |]. cbn [bind].
    destruct (Req_dec_T 86164.0905 0); [lra |]. cbn [bind].
    replace (np_degrees 0) with 0 by (unfold np_degrees; ring).
    rewrite cos_0. reflexivity.
  - apply Rmult_lt_0_compat; [unfold wgs84_mean_radius; lra | lra].
  - rewrite Ha. cbn [EARTH_MU earth_orbit]. lra.
Qed.

Lemma X17_witness :
  exists v,
    @compute_ground_velocity wgs84 earth_orbit
      (7000000 - wgs84_mean_radius) 0 = Ok v /\
    @along_track_distance_to_access_time wgs84 earth_orbit
      (7000000 - wgs84_mean_radius) 0 1000 = Ok (1000 / v).
Proof.
  destruct ground_velocity_7000km as (v & Hv & Hpos & Hq).
  exists v. split; [exact Hv |].
  assert (Hne : v <> 0) by lra.
  exact (proj1 (@X17_along_track_round_trip wgs84 earth_orbit _ 0 1000 v
                  Hq Hv Hne)).
Defined.

End NumericExtras.
